(** * A lightweight finite state machine: the event handler of
      finite_state_machine.h, embedded and verified.

    The C header defines three structs ([transition_t], [struct state],
    [state_machine_t]) and one function, [fsm_handle_event].  The structs
    refer to each other through pointers and call user code through function
    pointers, so the embedding works over an explicit memory: objects live in
    finite maps from addresses, a function pointer is an address that a code
    table interprets, and the handler is written in a small state-and-error
    monad that threads the memory through every load, call and store. *)

From stdpp Require Import gmap list.
From Stdlib Require Import ZArith.

Local Open Scope Z_scope.

(** ** Data model *)

(** [typedef int32_t data_t], [typedef int32_t event_id_t]; pointers and
    function pointers are addresses, [NULL] is address 0.  The handler only
    copies and compares these values, so no arithmetic can wrap. *)
Abbreviation data_t := Z (only parsing).
Abbreviation event_id_t := Z (only parsing).
Abbreviation ptr := Z (only parsing).
Abbreviation fnptr := Z (only parsing).

Definition NULL : Z := 0.

(** [event_t] of finite_state_machine_conf.h.  The C field is called [data];
    it is [event_data] here because [struct state] has a [data] field too. *)
Record event_t : Type := Build_event_t {
  ID : event_id_t;
  event_data : data_t
}.

(** [transition_t]. *)
Record transition_t : Type := Build_transition_t {
  eventID : event_id_t;
  nextState : ptr;
  guard : fnptr;
  action : fnptr
}.

(** [struct state].  [transitions] is the address of an array of
    [transition_t]; [numTransitions] is a [size_t]. *)
Record state_t : Type := Build_state_t {
  data : data_t;
  entryAction : fnptr;
  exitAction : fnptr;
  transitions : ptr;
  numTransitions : nat
}.

(** [state_machine_t]. *)
Record state_machine_t : Type := Build_state_machine_t {
  currentState : ptr
}.

(** The memory: the [state_t] objects, the transition arrays, the machines
    and the events, each by address, and [user], whatever else the
    application keeps (the part only user callbacks look at). *)
Record memory (W : Type) : Type := Build_memory {
  states : gmap Z state_t;
  arrays : gmap Z (list transition_t);
  machines : gmap Z state_machine_t;
  events : gmap Z event_t;
  user : W
}.
Arguments Build_memory {W} _ _ _ _ _.
Arguments states {W} _.
Arguments arrays {W} _.
Arguments machines {W} _.
Arguments events {W} _.
Arguments user {W} _.

(** The code behind the function pointers.  A guard takes a [data_t] and an
    [event_t] pointer and returns a [bool]; an action, entry or exit callback
    takes the same and returns nothing.  Both may read and write any
    memory. *)
Class Callbacks (W : Type) : Type := Build_Callbacks {
  guard_fn : fnptr → data_t → ptr → memory W → bool * memory W;
  action_fn : fnptr → data_t → ptr → memory W → memory W
}.

(** What the handler does to the outside, in the order it does it: the calls
    through function pointers with their arguments, and its stores. *)
Inductive effect : Type :=
  | CallGuard (f : fnptr) (stateData : data_t) (event : ptr)
  | CallAction (f : fnptr) (stateData : data_t) (event : ptr)
  | StoreCurrentState (fsm : ptr) (s : ptr).

(** A configuration: the memory, and two ghost fields that record the
    effects so far and the loop iterations run so far. *)
Record config (W : Type) : Type := Build_config {
  mem : memory W;
  trace : list effect;
  iterations : nat
}.
Arguments Build_config {W} _ _ _.
Arguments mem {W} _.
Arguments trace {W} _.
Arguments iterations {W} _.

Definition start {W} (m : memory W) : config W := Build_config m [] 0%nat.

(** ** The monad of the handler: state, and [None] for undefined behaviour
    (a load or store through a pointer that addresses no object). *)
Definition M (W A : Type) : Type := config W → option (A * config W).

Definition ret {W A} (a : A) : M W A := λ c, Some (a, c).

Definition bind {W A B} (m : M W A) (k : A → M W B) : M W B :=
  λ c, match m c with
       | Some (a, c') => k a c'
       | None => None
       end.

Declare Scope fsm_scope.
Delimit Scope fsm_scope with fsm.
Notation "'let*' x := m 'in' k" := (bind m (λ x, k))
  (at level 10, x name, m at level 100, k at level 200) : fsm_scope.
Notation "m >> k" := (bind m (λ _, k))
  (at level 100, k at level 200, right associativity) : fsm_scope.

Section Handler.
Context {W : Type} `{Callbacks W}.
Local Open Scope fsm_scope.

(** [fsm->currentState] *)
Definition load_currentState (fsm : ptr) : M W ptr :=
  λ c, sm ← machines (mem c) !! fsm; Some (currentState sm, c).

(** [*p] for a [state_t* p] *)
Definition load_state (p : ptr) : M W state_t :=
  λ c, s ← states (mem c) !! p; Some (s, c).

(** [*tp] for a [transition_t* tp], the address of element [tp.2] of the
    array at [tp.1] *)
Definition load_transition (tp : ptr * nat) : M W transition_t :=
  λ c, arr ← arrays (mem c) !! tp.1; t ← arr !! tp.2; Some (t, c).

(** [*event] *)
Definition load_event (event : ptr) : M W event_t :=
  λ c, e ← events (mem c) !! event; Some (e, c).

(** [f( stateData, event )] for a guard *)
Definition call_guard (f : fnptr) (stateData : data_t) (event : ptr) : M W bool :=
  λ c, let r := guard_fn f stateData event (mem c) in
       Some (r.1, Build_config r.2 (trace c ++ [CallGuard f stateData event])
                               (iterations c)).

(** [f( stateData, event )] for an action, entry or exit callback *)
Definition call_action (f : fnptr) (stateData : data_t) (event : ptr) : M W unit :=
  λ c, Some (tt, Build_config (action_fn f stateData event (mem c))
                              (trace c ++ [CallAction f stateData event])
                              (iterations c)).

(** The memory after [fsm->currentState = s]. *)
Definition set_currentState (fsm s : ptr) (m : memory W) : memory W :=
  Build_memory (states m) (arrays m)
               (<[fsm := Build_state_machine_t s]> (machines m))
               (events m) (user m).

(** [fsm->currentState = s] *)
Definition store_currentState (fsm s : ptr) : M W unit :=
  λ c, _ ← machines (mem c) !! fsm;
       Some (tt, Build_config (set_currentState fsm s (mem c))
                              (trace c ++ [StoreCurrentState fsm s])
                              (iterations c)).

(** Ghost: one more iteration of the loop body. *)
Definition tick : M W unit :=
  λ c, Some (tt, Build_config (mem c) (trace c) (S (iterations c))).

(** ** [fsm_handle_event] *)

(** The [for] loop, lines 158-166, from index [i] with [k] iterations
    left.  Its body stores nothing and calls nothing, so the bound
    [fsm->currentState->numTransitions] is the same at every test of
    [i < numTransitions]; the caller reads it once and passes
    [k = numTransitions - i].  [i] is a [size_t] that stays below
    [numTransitions], so [++i] cannot wrap.  The result is the local
    [transition]: [None] is its initial [NULL], [Some (a, i)] is
    [&fsm->currentState->transitions[ i ]]. *)
Fixpoint find_transition (fsm event : ptr) (k i : nat) : M W (option (ptr * nat)) :=
  match k with
  | O => ret None
  | S k' =>
      tick >>
      let* cs := load_currentState fsm in
      let* s := load_state cs in
      let* t := load_transition (transitions s, i) in
      let* e := load_event event in
      if eventID t =? ID e
      then ret (Some (transitions s, i))
      else find_transition fsm event k' (S i)
  end.

(** [if( f ) f( stateData, event )], where the argument [stateData] is
    itself read from memory when the call is made. *)
Definition call_if_set (f : fnptr) (stateData : M W data_t) (event : ptr) : M W unit :=
  if f =? NULL then ret tt
  else let* d := stateData in call_action f d event.

(** [fsm->currentState->data] *)
Definition currentState_data (fsm : ptr) : M W data_t :=
  let* cs := load_currentState fsm in
  let* s := load_state cs in
  ret (data s).

Definition fsm_handle_event (fsm event : ptr) : M W bool :=
  let* cs := load_currentState fsm in
  let* s := load_state cs in
  let* transition := find_transition fsm event (numTransitions s) 0 in
  match transition with
  | Some tp =>
      let* t := load_transition tp in
      let* guardResult :=
        (if guard t =? NULL then ret true
         else let* d := currentState_data fsm in
              call_guard (guard t) d event) in
      if guardResult : bool then
        let* cs := load_currentState fsm in
        let* s := load_state cs in
        call_if_set (exitAction s) (currentState_data fsm) event >>
        let* t := load_transition tp in
        call_if_set (action t) (currentState_data fsm) event >>
        let* t := load_transition tp in
        let* ns := load_state (nextState t) in
        call_if_set (entryAction ns)
          (let* t := load_transition tp in
           let* ns := load_state (nextState t) in
           ret (data ns)) event >>
        let* t := load_transition tp in
        store_currentState fsm (nextState t) >>
        ret true
      else ret false
  | None => ret false
  end.

End Handler.

(** ** The vocabulary of the properties *)

(** The transition list of a state: the first [numTransitions] elements of
    the array its [transitions] field points to. *)
Definition transition_list (s : state_t) (arr : list transition_t) : list transition_t :=
  take (numTransitions s) arr.

(** The first transition of a list, in declaration order, whose event
    identifier equals the event's, with its index. *)
Definition first_match (e : event_t) (ts : list transition_t) : option (nat * transition_t) :=
  list_find (λ t, eventID t = ID e) ts.

(** The three kinds of effect. *)
Definition is_call (x : effect) : bool :=
  match x with
  | CallGuard _ _ _ | CallAction _ _ _ => true
  | StoreCurrentState _ _ => false
  end.

Definition is_guard_call (x : effect) : bool :=
  match x with
  | CallGuard _ _ _ => true
  | _ => false
  end.

Definition is_store (x : effect) : bool :=
  match x with
  | StoreCurrentState _ _ => true
  | _ => false
  end.

Section Specification.
Context {W : Type} `{Callbacks W}.

(** The machine at [fsm] is in the state at [cs], whose contents are [s]
    and whose transition array is [arr], and [event] points to [e]. *)
Record dispatch_ready (m : memory W) (fsm event cs : ptr)
    (s : state_t) (arr : list transition_t) (e : event_t) : Prop :=
  Build_dispatch_ready {
    ready_machine : machines m !! fsm = Some (Build_state_machine_t cs);
    ready_state : states m !! cs = Some s;
    ready_array : arrays m !! transitions s = Some arr;
    ready_event : events m !! event = Some e
  }.

(** The topology (states and transition arrays) and the machine at [fsm]
    are the same in both memories. *)
Definition same_topology (fsm : ptr) (m m' : memory W) : Prop :=
  states m' = states m ∧ arrays m' = arrays m ∧
  machines m' !! fsm = machines m !! fsm.

(** The topology is read-only at run time and only the handler moves the
    machine it is handling: no callback writes a state, a transition or the
    machine at [fsm].  The events, the other machines and the user's memory
    are theirs to change. *)
Definition callbacks_keep_topology (fsm : ptr) : Prop :=
  ∀ f d ev m,
    same_topology fsm m (action_fn f d ev m) ∧
    same_topology fsm m (guard_fn f d ev m).2.

(** The guard step of a matched transition [t] in state [s]. *)
Definition guard_step (t : transition_t) (s : state_t) (event : ptr)
    (m : memory W) : bool * memory W :=
  if guard t =? NULL then (true, m) else guard_fn (guard t) (data s) event m.

Definition guard_calls (t : transition_t) (s : state_t) (event : ptr) : list effect :=
  if guard t =? NULL then [] else [CallGuard (guard t) (data s) event].

(** An optional callback [f] run with [d] and [event]. *)
Definition callback_step (f : fnptr) (d : data_t) (event : ptr) (m : memory W) : memory W :=
  if f =? NULL then m else action_fn f d event m.

Definition callback_calls (f : fnptr) (d : data_t) (event : ptr) : list effect :=
  if f =? NULL then [] else [CallAction f d event].

(** The callbacks of a transition [t] that fires from [s] into [s']. *)
Definition fire_steps (t : transition_t) (s s' : state_t) (event : ptr)
    (m : memory W) : memory W :=
  callback_step (entryAction s') (data s') event
    (callback_step (action t) (data s) event
       (callback_step (exitAction s) (data s) event m)).

Definition fire_calls (t : transition_t) (s s' : state_t) (event : ptr) : list effect :=
  callback_calls (exitAction s) (data s) event ++
  callback_calls (action t) (data s) event ++
  callback_calls (entryAction s') (data s') event.

(** A guard is a function of its arguments, the payload and the event it
    is pointed to (and of the topology, which does not change): its verdict
    is the same in two memories that agree on them. *)
Definition guards_depend_on_arguments : Prop :=
  ∀ f d ev m1 m2,
    states m1 = states m2 → arrays m1 = arrays m2 →
    events m1 !! ev = events m2 !! ev →
    (guard_fn f d ev m1).1 = (guard_fn f d ev m2).1.

(** What one effect of the trace does to the memory, and what a whole
    trace does. *)
Definition run_effect (x : effect) (m : memory W) : memory W :=
  match x with
  | CallGuard f d ev => (guard_fn f d ev m).2
  | CallAction f d ev => action_fn f d ev m
  | StoreCurrentState fsm p => set_currentState fsm p m
  end.

Definition replay (tr : list effect) (m : memory W) : memory W :=
  foldl (λ m x, run_effect x m) m tr.

(** From [c] to [c'] the handler only called user code: the trace grew by
    calls, and the memory is what those calls made of it. *)
Definition calls_only (c c' : config W) : Prop :=
  ∃ tr, Forall (λ x, is_call x) tr ∧
        trace c' = trace c ++ tr ∧ mem c' = replay tr (mem c).

(** Every run of [op] that returns satisfies [R] between the configuration
    it started in and the one it ended in. *)
Definition preserves {A} (R : relation (config W)) (op : M W A) : Prop :=
  ∀ c a c', op c = Some (a, c') → R c c'.

End Specification.

(** ** A concrete program: a door and a lock

    Two machines over one topology.  The door is the usage example of the
    header with callbacks added; the lock has a guarded transition, a second
    transition for the same event behind it, and a transition to itself.
    The user's memory is the list of the callbacks run so far, each with the
    payload it was given. *)
Module Demo.

Definition STATE_CLOSED : Z := 1.
Definition STATE_OPEN : Z := 2.
Definition STATE_LOCKED : Z := 3.
Definition STATE_UNLOCKED : Z := 4.

Definition EVENT_OPEN : Z := 0.
Definition EVENT_CLOSE : Z := 1.
Definition EVENT_KEY : Z := 5.
Definition EVENT_PING : Z := 6.
Definition EVENT_OTHER : Z := 9.

(** Addresses of the functions. *)
Definition closedExit : Z := 11.
Definition openEntry : Z := 12.
Definition doorOpenedAction : Z := 13.
Definition doorClosedAction : Z := 14.
Definition lockedEntry : Z := 15.
Definition lockedExit : Z := 16.
Definition forcedAction : Z := 17.
Definition pingAction : Z := 18.
Definition keyIs42 : Z := 21.

(** Addresses of the objects. *)
Definition doorClosedState : Z := 100.
Definition doorOpenState : Z := 101.
Definition lockedState : Z := 110.
Definition unlockedState : Z := 111.
Definition door : Z := 300.
Definition lock : Z := 301.

Definition doorClosed : state_t := Build_state_t STATE_CLOSED NULL closedExit 200 1.
Definition doorOpen : state_t := Build_state_t STATE_OPEN openEntry NULL 201 1.
Definition locked : state_t := Build_state_t STATE_LOCKED lockedEntry lockedExit 210 3.
Definition unlocked : state_t := Build_state_t STATE_UNLOCKED NULL NULL NULL 0.

Definition topology : gmap Z state_t :=
  <[doorClosedState := doorClosed]>
  (<[doorOpenState := doorOpen]>
  (<[lockedState := locked]>
  (<[unlockedState := unlocked]> ∅))).

Definition open_it : transition_t :=
  Build_transition_t EVENT_OPEN doorOpenState NULL doorOpenedAction.
Definition close_it : transition_t :=
  Build_transition_t EVENT_CLOSE doorClosedState NULL doorClosedAction.
Definition unlock_it : transition_t :=
  Build_transition_t EVENT_KEY unlockedState keyIs42 NULL.
Definition force_it : transition_t :=
  Build_transition_t EVENT_KEY doorClosedState NULL forcedAction.
Definition ping_it : transition_t :=
  Build_transition_t EVENT_PING lockedState NULL pingAction.

Definition lockedTable : list transition_t := [unlock_it; force_it; ping_it].

Definition tables : gmap Z (list transition_t) :=
  <[200 := [open_it]]> (<[201 := [close_it]]> (<[210 := lockedTable]> ∅)).

(** Events, by address: OPEN, KEY with payload 7, KEY with payload 42,
    PING, and an event no state has a transition for. *)
Definition open_event : event_t := Build_event_t EVENT_OPEN 0.
Definition wrong_key : event_t := Build_event_t EVENT_KEY 7.
Definition right_key : event_t := Build_event_t EVENT_KEY 42.
Definition ping : event_t := Build_event_t EVENT_PING 0.
Definition other : event_t := Build_event_t EVENT_OTHER 0.

Definition inbox : gmap Z event_t :=
  <[400 := open_event]>
  (<[401 := wrong_key]>
  (<[402 := right_key]>
  (<[403 := ping]>
  (<[404 := other]> ∅)))).

Definition boot : memory (list (Z * Z)) :=
  Build_memory topology tables
    (<[door := Build_state_machine_t doorClosedState]>
     (<[lock := Build_state_machine_t lockedState]> ∅))
    inbox [].

(** The same, later in the life of the application. *)
Definition later : memory (list (Z * Z)) :=
  Build_memory topology tables
    (<[door := Build_state_machine_t doorClosedState]>
     (<[lock := Build_state_machine_t lockedState]> ∅))
    inbox [(pingAction, STATE_LOCKED)].

(** The configuration the door is in after the OPEN event from [boot]. *)
Definition door_opened : config (list (Z * Z)) :=
  Build_config
    (Build_memory topology tables
       (<[door := Build_state_machine_t doorOpenState]>
        (<[lock := Build_state_machine_t lockedState]> ∅))
       inbox
       [(closedExit, STATE_CLOSED); (doorOpenedAction, STATE_CLOSED);
        (openEntry, STATE_OPEN)])
    [CallAction closedExit STATE_CLOSED 400;
     CallAction doorOpenedAction STATE_CLOSED 400;
     CallAction openEntry STATE_OPEN 400;
     StoreCurrentState door doorOpenState]
    1.

(** Every action, entry and exit callback notes its own address and the
    payload it received. *)
Definition note (f : Z) (d : Z) (m : memory (list (Z * Z))) : memory (list (Z * Z)) :=
  Build_memory (states m) (arrays m) (machines m) (events m) (user m ++ [(f, d)]).

(** The guard [keyIs42] accepts an event whose payload is 42; it leaves
    the memory alone. *)
Definition payload_is_42 (ev : Z) (m : memory (list (Z * Z))) : bool :=
  match events m !! ev with
  | Some e => event_data e =? 42
  | None => false
  end.

#[global] Instance code : Callbacks (list (Z * Z)) :=
  Build_Callbacks (list (Z * Z))
    (λ f d ev m, (if f =? keyIs42 then payload_is_42 ev m else true, m))
    (λ f d ev m, note f d m).

(** A callback that breaks the rule: it moves the door itself. *)
Definition rogue : Callbacks (list (Z * Z)) :=
  Build_Callbacks (list (Z * Z))
    (λ f d ev m, (true, m))
    (λ f d ev m, Build_memory (states m) (arrays m)
                   (<[door := Build_state_machine_t lockedState]> (machines m))
                   (events m) (user m ++ [(f, d)])).

End Demo.

(** ** The helper macros, lines 136-143 *)

Definition SM_NO_ACTION : Z := NULL.
Definition SM_NO_GUARD : Z := NULL.

(** A [state_t] whose initialiser is [SM_STATE_ACTIONS( DATA, ENTRY, EXIT )]
    followed by [SM_TRANSITIONS( ... )].  The compound literal of the
    transitions is an array object, at address [array] here with the
    elements [ts]; [numTransitions] is the size of that literal divided by
    the size of a [transition_t], the number of its elements. *)
Definition SM_STATE (DATA : data_t) (ENTRY EXIT : fnptr) (array : ptr)
    (ts : list transition_t) : state_t :=
  Build_state_t DATA ENTRY EXIT array (length ts).

Section WellFormed.
Context {W : Type}.

(** A memory the handler can run on for the machine at [fsm], any number of
    times: the machine is in a state, and every state has its array, a count
    within the array, and transitions that lead to states. *)
Definition well_formed (m : memory W) (fsm : ptr) : Prop :=
  (∃ cs, machines m !! fsm = Some (Build_state_machine_t cs) ∧
         is_Some (states m !! cs)) ∧
  ∀ p s, states m !! p = Some s →
    ∃ arr, arrays m !! transitions s = Some arr ∧
           (numTransitions s ≤ length arr)%nat ∧
           Forall (λ t, is_Some (states m !! nextState t)) (transition_list s arr).

End WellFormed.

Section Provisos.
Context {W : Type} `{Callbacks W}.

(** No callback writes the machine at [a]; states, arrays, events and other
    machines they may write. *)
Definition callbacks_keep_machine (a : ptr) : Prop :=
  ∀ f d ev m,
    machines (action_fn f d ev m) !! a = machines m !! a ∧
    machines (guard_fn f d ev m).2 !! a = machines m !! a.

(** The machine at [fsm], the state at [cs] and the array at [a] are the
    same in both memories. *)
Definition same_source (fsm cs a : ptr) (m m' : memory W) : Prop :=
  machines m' !! fsm = machines m !! fsm ∧
  states m' !! cs = states m !! cs ∧
  arrays m' !! a = arrays m !! a.

(** No callback writes the machine at [fsm], the state at [cs] it is in or
    the array at [a] of that state; the other states, the target of a
    transition among them, they may write. *)
Definition callbacks_keep_source (fsm cs a : ptr) : Prop :=
  ∀ f d ev m,
    same_source fsm cs a m (action_fn f d ev m) ∧
    same_source fsm cs a m (guard_fn f d ev m).2.

(** The memory when the handler turns to the target of [t]: what the exit
    callback of [s] and then the action of [t] made of [m]. *)
Definition after_exit_and_action (t : transition_t) (s : state_t) (event : ptr)
    (m : memory W) : memory W :=
  callback_step (action t) (data s) event
    (callback_step (exitAction s) (data s) event m).

End Provisos.

(** ** The example of the header, and three faulty tables *)
Module Example.

Definition STATE_OPEN : Z := 0.
Definition STATE_CLOSED : Z := 1.
Definition EVENT_OPEN : Z := 0.
Definition EVENT_CLOSE : Z := 1.

Definition doorOpenedAction : Z := 31.
Definition doorClosedAction : Z := 32.

Definition doorOpenState : Z := 500.
Definition doorClosedState : Z := 501.
Definition fsm : Z := 600.

Definition openTransitions : list transition_t :=
  [Build_transition_t EVENT_CLOSE doorClosedState SM_NO_ACTION doorClosedAction].
Definition closedTransitions : list transition_t :=
  [Build_transition_t EVENT_OPEN doorOpenState SM_NO_ACTION doorOpenedAction].

Definition doorOpen : state_t :=
  SM_STATE STATE_OPEN SM_NO_ACTION SM_NO_ACTION 510 openTransitions.
Definition doorClosed : state_t :=
  SM_STATE STATE_CLOSED SM_NO_ACTION SM_NO_ACTION 511 closedTransitions.

(** The event of [openFunc], at address 700, and a CLOSE event. *)
Definition open_event : event_t := Build_event_t EVENT_OPEN 0.
Definition close_event : event_t := Build_event_t EVENT_CLOSE 0.

Definition boot : memory (list (Z * Z)) :=
  Build_memory
    (<[doorOpenState := doorOpen]> (<[doorClosedState := doorClosed]> ∅))
    (<[510 := openTransitions]> (<[511 := closedTransitions]> ∅))
    (<[fsm := Build_state_machine_t doorClosedState]> ∅)
    (<[700 := open_event]> (<[701 := close_event]> ∅))
    [].

(** A latch: one transition with no guard and no action between two states
    without entry and exit callbacks. *)
Definition latchTransitions : list transition_t :=
  [Build_transition_t EVENT_CLOSE 521 SM_NO_GUARD SM_NO_ACTION].

Definition latch : memory (list (Z * Z)) :=
  Build_memory
    (<[520 := SM_STATE 0 SM_NO_ACTION SM_NO_ACTION 530 latchTransitions]>
     (<[521 := SM_STATE 1 SM_NO_ACTION SM_NO_ACTION NULL []]> ∅))
    (<[530 := latchTransitions]> ∅)
    (<[fsm := Build_state_machine_t 520]> ∅)
    (<[701 := close_event]> ∅)
    [].

(** A state written by hand whose count, 2, is larger than its array. *)
Definition miscounted : state_t := Build_state_t STATE_CLOSED NULL NULL 511 2.

Definition overrun : memory (list (Z * Z)) :=
  Build_memory
    (<[doorClosedState := miscounted]> ∅)
    (<[511 := closedTransitions]> ∅)
    (<[fsm := Build_state_machine_t doorClosedState]> ∅)
    (<[701 := close_event]> ∅)
    [].

(** The closed door alone: the target of its transition is no state. *)
Definition dangling : memory (list (Z * Z)) :=
  Build_memory
    (<[doorClosedState := doorClosed]> ∅)
    (<[511 := closedTransitions]> ∅)
    (<[fsm := Build_state_machine_t doorClosedState]> ∅)
    (<[700 := open_event]> ∅)
    [].

End Example.

(** ** A program that builds a state on the way: the action of the door's
    transition puts the open state into the memory before the handler turns
    to it. *)
Module Builder.

Definition build (f : Z) (d : Z) (m : memory (list (Z * Z))) : memory (list (Z * Z)) :=
  Build_memory (<[Example.doorOpenState := Example.doorOpen]> (states m))
    (arrays m) (machines m) (events m) (user m ++ [(f, d)]).

Definition code : Callbacks (list (Z * Z)) :=
  Build_Callbacks (list (Z * Z)) (λ f d ev m, (true, m)) (λ f d ev m, build f d m).

(** The door of [Example.dangling] after the OPEN event under [code]. *)
Definition door_opened : config (list (Z * Z)) :=
  Build_config
    (Build_memory
       (<[Example.doorOpenState := Example.doorOpen]>
          (<[Example.doorClosedState := Example.doorClosed]> ∅))
       (<[511 := Example.closedTransitions]> ∅)
       (<[Example.fsm := Build_state_machine_t Example.doorOpenState]> ∅)
       (<[700 := Example.open_event]> ∅)
       [(Example.doorOpenedAction, Example.STATE_CLOSED)])
    [CallAction Example.doorOpenedAction Example.STATE_CLOSED 700;
     StoreCurrentState Example.fsm Example.doorOpenState]
    1.

End Builder.

(** ** The monad and the loads *)

Section Loads.
Context {W : Type} `{Callbacks W}.
Implicit Types c : config W.

Lemma bind_Some {A B} (m : M W A) (k : A → M W B) c a c' :
  m c = Some (a, c') → bind m k c = k a c'.
Proof. intros E. unfold bind. by rewrite E. Qed.

Lemma bind_None {A B} (m : M W A) (k : A → M W B) c :
  m c = None → bind m k c = None.
Proof. intros E. unfold bind. by rewrite E. Qed.

Lemma load_currentState_Some fsm c cs :
  machines (mem c) !! fsm = Some (Build_state_machine_t cs) →
  load_currentState fsm c = Some (cs, c).
Proof. intros E. unfold load_currentState. by rewrite E. Qed.

Lemma load_state_Some p c s :
  states (mem c) !! p = Some s → load_state p c = Some (s, c).
Proof. intros E. unfold load_state. by rewrite E. Qed.

Lemma load_transition_Some a i c arr t :
  arrays (mem c) !! a = Some arr → arr !! i = Some t →
  load_transition (a, i) c = Some (t, c).
Proof. intros E1 E2. unfold load_transition. simpl. rewrite E1. simpl. by rewrite E2. Qed.

Lemma load_event_Some event c e :
  events (mem c) !! event = Some e → load_event event c = Some (e, c).
Proof. intros E. unfold load_event. by rewrite E. Qed.

Lemma currentState_data_Some fsm c cs s :
  machines (mem c) !! fsm = Some (Build_state_machine_t cs) →
  states (mem c) !! cs = Some s →
  currentState_data fsm c = Some (data s, c).
Proof.
  intros E1 E2. unfold currentState_data.
  rewrite (bind_Some _ _ _ _ _ (load_currentState_Some _ _ _ E1)).
  by rewrite (bind_Some _ _ _ _ _ (load_state_Some _ _ _ E2)).
Qed.

End Loads.

(** ** The transition search *)

Section Search.
Context {W : Type} `{Callbacks W}.
Variables (fsm event cs : ptr) (s : state_t) (arr : list transition_t) (e : event_t).

Implicit Types c : config W.

Lemma find_transition_step c k i t :
  dispatch_ready (mem c) fsm event cs s arr e → arr !! i = Some t →
  find_transition fsm event (S k) i c =
    if eventID t =? ID e
    then Some (Some (transitions s, i), Build_config (mem c) (trace c) (S (iterations c)))
    else find_transition fsm event k (S i) (Build_config (mem c) (trace c) (S (iterations c))).
Proof.
  intros [Hm Hs Ha He] Ht. simpl.
  unfold bind at 1. simpl.
  set (c1 := Build_config _ _ _).
  rewrite (bind_Some _ _ c1 cs c1) by by apply load_currentState_Some.
  rewrite (bind_Some _ _ c1 s c1) by by apply load_state_Some.
  rewrite (bind_Some _ _ c1 t c1) by by eapply load_transition_Some.
  rewrite (bind_Some _ _ c1 e c1) by by apply load_event_Some.
  by destruct (eventID t =? ID e).
Qed.

Lemma find_transition_oob c k i :
  dispatch_ready (mem c) fsm event cs s arr e → arr !! i = None → find_transition fsm event (S k) i c = None.
Proof.
  intros [Hm Hs Ha He] Ht. simpl.
  unfold bind at 1. simpl.
  set (c1 := Build_config _ _ _).
  rewrite (bind_Some _ _ c1 cs c1) by by apply load_currentState_Some.
  rewrite (bind_Some _ _ c1 s c1) by by apply load_state_Some.
  apply bind_None. unfold load_transition. simpl. rewrite Ha. simpl. by rewrite Ht.
Qed.

(** The loop stops at the first matching element, after one iteration per
    element up to and including it. *)
Lemma find_transition_found k : ∀ i c j t,
  dispatch_ready (mem c) fsm event cs s arr e →
  first_match e (take k (drop i arr)) = Some (j, t) →
  find_transition fsm event k i c =
    Some (Some (transitions s, (i + j)%nat),
          Build_config (mem c) (trace c) (S j + iterations c)).
Proof.
  induction k as [|k IH]; intros i c j t Hv Hf.
  - by rewrite take_0 in Hf.
  - destruct (arr !! i) as [x|] eqn:Hx.
    + rewrite (drop_S _ _ _ Hx) in Hf. unfold first_match in *. simpl in Hf.
      rewrite (find_transition_step _ _ _ _ Hv Hx).
      case_decide as Hd.
      * simplify_eq. rewrite (proj2 (Z.eqb_eq _ _) Hd).
        by rewrite Nat.add_0_r.
      * rewrite (proj2 (Z.eqb_neq _ _) Hd).
        destruct (list_find _ (take k (drop (S i) arr))) as [[j' t']|] eqn:Hr;
          simplify_eq/=.
        rewrite (IH (S i) _ j' t); [|done|by unfold first_match].
        simpl. by rewrite !Nat.add_succ_r.
    + apply lookup_ge_None in Hx. rewrite drop_ge in Hf by lia.
      by rewrite take_nil in Hf.
Qed.

(** Without a match the loop runs once per element and leaves
    [transition] at [NULL]. *)
Lemma find_transition_none k : ∀ i c,
  dispatch_ready (mem c) fsm event cs s arr e → (i + k ≤ length arr)%nat →
  first_match e (take k (drop i arr)) = None →
  find_transition fsm event k i c =
    Some (None, Build_config (mem c) (trace c) (k + iterations c)).
Proof.
  induction k as [|k IH]; intros i c Hv Hlen Hf.
  - simpl. unfold ret. by destruct c.
  - destruct (lookup_lt_is_Some_2 arr i) as [x Hx]; [lia|].
    rewrite (drop_S _ _ _ Hx) in Hf. unfold first_match in *. simpl in Hf.
    rewrite (find_transition_step _ _ _ _ Hv Hx).
    case_decide as Hd; [done|].
    rewrite (proj2 (Z.eqb_neq _ _) Hd).
    destruct (list_find _ (take k (drop (S i) arr))) as [[j' t']|] eqn:Hr;
      simplify_eq/=.
    rewrite IH; [|done|lia|by unfold first_match].
    simpl. by rewrite Nat.add_succ_r.
Qed.

End Search.

(** ** The three outcomes of [fsm_handle_event] *)

Section Outcomes.
Context {W : Type} `{Callbacks W}.
Implicit Types (c : config W) (m : memory W).

Lemma same_topology_refl fsm m : same_topology fsm m m.
Proof. by repeat split. Qed.

Lemma same_topology_trans fsm m1 m2 m3 :
  same_topology fsm m1 m2 → same_topology fsm m2 m3 → same_topology fsm m1 m3.
Proof. intros (?&?&?) (?&?&?). repeat split; congruence. Qed.

Lemma callback_step_topology fsm f d ev m :
  callbacks_keep_topology fsm → same_topology fsm m (callback_step f d ev m).
Proof.
  intros K. unfold callback_step.
  destruct (f =? NULL); [apply same_topology_refl | apply K].
Qed.

Lemma guard_step_topology fsm t s ev m :
  callbacks_keep_topology fsm → same_topology fsm m (guard_step t s ev m).2.
Proof.
  intros K. unfold guard_step.
  destruct (guard t =? NULL); [apply same_topology_refl | apply K].
Qed.

Lemma fire_steps_topology fsm t s s' ev m :
  callbacks_keep_topology fsm → same_topology fsm m (fire_steps t s s' ev m).
Proof.
  intros K. unfold fire_steps.
  repeat (eapply same_topology_trans; [|by apply callback_step_topology]).
  apply same_topology_refl.
Qed.

Lemma first_match_lookup e s arr i t :
  first_match e (transition_list s arr) = Some (i, t) →
  arr !! i = Some t ∧ (i < numTransitions s)%nat ∧ eventID t = ID e.
Proof.
  unfold first_match, transition_list. intros Hf.
  apply list_find_Some in Hf as (Hl & He & _).
  apply lookup_take_Some in Hl as [Hl Hi]. done.
Qed.

(** [if( f ) f( stateData, event )] when the argument evaluates to [d]. *)
Lemma call_if_set_Some f (arg : M W data_t) event c d :
  arg c = Some (d, c) →
  call_if_set f arg event c =
    Some (tt, Build_config (callback_step f d event (mem c))
                           (trace c ++ callback_calls f d event)
                           (iterations c)).
Proof.
  intros Harg. unfold call_if_set, callback_step, callback_calls.
  destruct (f =? NULL).
  - unfold ret. rewrite app_nil_r. by destruct c.
  - by rewrite (bind_Some _ _ _ _ _ Harg).
Qed.

Variables (fsm event cs : ptr) (s : state_t) (arr : list transition_t) (e : event_t).

(** Lines 170-175: the guard of the matched transition. *)
Lemma guard_Some t c :
  machines (mem c) !! fsm = Some (Build_state_machine_t cs) →
  states (mem c) !! cs = Some s →
  (if guard t =? NULL then ret true
   else bind (currentState_data fsm) (λ d, call_guard (guard t) d event)) c =
    Some ((guard_step t s event (mem c)).1,
          Build_config (guard_step t s event (mem c)).2
                       (trace c ++ guard_calls t s event) (iterations c)).
Proof.
  intros Hm Hs. unfold guard_step, guard_calls.
  destruct (guard t =? NULL).
  - unfold ret. rewrite app_nil_r. by destruct c.
  - by rewrite (bind_Some _ _ _ _ _ (currentState_data_Some _ _ _ _ Hm Hs)).
Qed.

(** No transition of the current state is for this event. *)
Lemma handle_no_match c :
  dispatch_ready (mem c) fsm event cs s arr e →
  (numTransitions s ≤ length arr)%nat →
  first_match e (transition_list s arr) = None →
  fsm_handle_event fsm event c =
    Some (false, Build_config (mem c) (trace c) (numTransitions s + iterations c)).
Proof.
  intros Hr Hn Hf. pose proof Hr as [Hm Hs Ha He]. unfold fsm_handle_event.
  rewrite (bind_Some _ _ _ _ _ (load_currentState_Some _ _ _ Hm)).
  rewrite (bind_Some _ _ _ _ _ (load_state_Some _ _ _ Hs)).
  by rewrite (bind_Some _ _ _ _ _
    (find_transition_none fsm event cs s arr e _ 0%nat c Hr Hn
       (eq_ind_r (λ l, first_match e (take _ l) = None) Hf (drop_0 arr)))).
Qed.

(** The search and the guard: the part of the handler every matching
    event goes through. *)
Local Ltac search_and_guard Hr Hf Hl :=
  erewrite bind_Some;
    [|eapply (find_transition_found fsm event cs s arr e);
      [exact Hr|rewrite drop_0; exact Hf]];
  cbv beta iota;
  erewrite bind_Some; [|eapply load_transition_Some; [apply Hr|exact Hl]];
  erewrite bind_Some; [|apply guard_Some; apply Hr];
  cbn [mem trace iterations].

(** The first matching transition has a guard and the guard says no. *)
Lemma handle_rejected c i t :
  dispatch_ready (mem c) fsm event cs s arr e →
  first_match e (transition_list s arr) = Some (i, t) →
  (guard_step t s event (mem c)).1 = false →
  fsm_handle_event fsm event c =
    Some (false, Build_config (guard_step t s event (mem c)).2
                              (trace c ++ guard_calls t s event)
                              (S i + iterations c)).
Proof.
  intros Hr Hf Hg. pose proof Hr as [Hm Hs Ha He]. unfold fsm_handle_event.
  rewrite (bind_Some _ _ _ _ _ (load_currentState_Some _ _ _ Hm)).
  rewrite (bind_Some _ _ _ _ _ (load_state_Some _ _ _ Hs)).
  destruct (first_match_lookup _ _ _ _ _ Hf) as (Hl & Hi & Hid).
  search_and_guard Hr Hf Hl. by rewrite Hg.
Qed.

(** The first matching transition has no guard, or its guard says yes. *)
Lemma handle_fires c i t s' :
  callbacks_keep_topology fsm →
  dispatch_ready (mem c) fsm event cs s arr e →
  first_match e (transition_list s arr) = Some (i, t) →
  states (mem c) !! nextState t = Some s' →
  (guard_step t s event (mem c)).1 = true →
  fsm_handle_event fsm event c =
    Some (true,
          Build_config
            (set_currentState fsm (nextState t)
               (fire_steps t s s' event (guard_step t s event (mem c)).2))
            (trace c ++ guard_calls t s event ++ fire_calls t s s' event ++
               [StoreCurrentState fsm (nextState t)])
            (S i + iterations c)).
Proof.
  intros K Hr Hf Hs' Hg. pose proof Hr as [Hm Hs Ha He]. unfold fsm_handle_event.
  destruct (first_match_lookup _ _ _ _ _ Hf) as (Hl & Hi & Hid).
  rewrite (bind_Some _ _ _ _ _ (load_currentState_Some _ _ _ Hm)).
  rewrite (bind_Some _ _ _ _ _ (load_state_Some _ _ _ Hs)).
  search_and_guard Hr Hf Hl. rewrite Hg.
  unfold fire_steps, fire_calls.
  set (m := mem c) in *.
  set (m1 := (guard_step t s event m).2).
  set (m2 := callback_step (exitAction s) (data s) event m1).
  set (m3 := callback_step (action t) (data s) event m2).
  set (m4 := callback_step (entryAction s') (data s') event m3).
  assert (same_topology fsm m m1) as T1 by by apply guard_step_topology.
  assert (same_topology fsm m m2) as T2
    by (eapply same_topology_trans; [done|by apply callback_step_topology]).
  assert (same_topology fsm m m3) as T3
    by (eapply same_topology_trans; [done|by apply callback_step_topology]).
  assert (same_topology fsm m m4) as T4
    by (eapply same_topology_trans; [done|by apply callback_step_topology]).
  destruct T1 as (S1 & A1 & M1), T2 as (S2 & A2 & M2),
           T3 as (S3 & A3 & M3), T4 as (S4 & A4 & M4).
  (* exit action *)
  erewrite bind_Some; [|apply load_currentState_Some; simpl; by rewrite M1].
  erewrite bind_Some; [|apply load_state_Some; simpl; by rewrite S1].
  erewrite bind_Some;
    [|apply call_if_set_Some, (currentState_data_Some _ _ cs s); simpl;
      [by rewrite M1|by rewrite S1]].
  simpl. fold m2.
  (* transition action *)
  erewrite bind_Some;
    [|eapply load_transition_Some; simpl; [by rewrite A2|done]].
  erewrite bind_Some;
    [|apply call_if_set_Some, (currentState_data_Some _ _ cs s); simpl;
      [by rewrite M2|by rewrite S2]].
  simpl. fold m3.
  (* entry action of the target *)
  erewrite bind_Some;
    [|eapply load_transition_Some; simpl; [by rewrite A3|done]].
  erewrite bind_Some; [|apply load_state_Some; simpl; by rewrite S3].
  erewrite bind_Some; [|apply (call_if_set_Some _ _ _ _ (data s'))].
  2:{ erewrite bind_Some;
        [|eapply load_transition_Some; simpl; [by rewrite A3|done]].
      erewrite bind_Some; [|apply load_state_Some; simpl; by rewrite S3].
      done. }
  simpl. fold m4.
  (* the store *)
  erewrite bind_Some;
    [|eapply load_transition_Some; simpl; [by rewrite A4|done]].
  unfold bind, store_currentState, ret. simpl. rewrite M4, Hm. simpl.
  by rewrite <- !app_assoc.
Qed.

End Outcomes.

(** ** What the handler itself writes *)

Section Frame.
Context {W : Type} `{Callbacks W}.
Implicit Types (c : config W) (m : memory W).

Lemma bind_inv {A B} (op : M W A) (k : A → M W B) c b c' :
  bind op k c = Some (b, c') →
  ∃ a c1, op c = Some (a, c1) ∧ k a c1 = Some (b, c').
Proof.
  unfold bind. destruct (op c) as [[a c1]|]; [|done]. eauto.
Qed.

Lemma replay_app tr1 tr2 m : replay (tr1 ++ tr2) m = replay tr2 (replay tr1 m).
Proof. apply foldl_app. Qed.

Lemma calls_only_refl c : calls_only c c.
Proof. exists []. by rewrite app_nil_r. Qed.

Lemma calls_only_trans c1 c2 c3 :
  calls_only c1 c2 → calls_only c2 c3 → calls_only c1 c3.
Proof.
  intros (tr1 & F1 & T1 & M1) (tr2 & F2 & T2 & M2). exists (tr1 ++ tr2).
  split; [by apply Forall_app|]. split.
  - by rewrite T2, T1, app_assoc.
  - by rewrite M2, M1, replay_app.
Qed.

Lemma preserves_ret {A} (a : A) : preserves calls_only (ret a).
Proof. intros c a' c' [= <- <-]. apply calls_only_refl. Qed.

Lemma preserves_bind {A B} (op : M W A) (k : A → M W B) :
  preserves calls_only op → (∀ a, preserves calls_only (k a)) →
  preserves calls_only (bind op k).
Proof.
  intros Hop Hk c b c' Hrun.
  apply bind_inv in Hrun as (a & c1 & E1 & E2).
  eapply calls_only_trans; [by eapply Hop|by eapply Hk].
Qed.

Lemma preserves_load_currentState fsm : preserves calls_only (load_currentState fsm).
Proof.
  intros c a c'. unfold load_currentState.
  destruct (machines (mem c) !! fsm); intros [= <- <-]. apply calls_only_refl.
Qed.

Lemma preserves_load_state p : preserves calls_only (load_state p).
Proof.
  intros c a c'. unfold load_state.
  destruct (states (mem c) !! p); intros [= <- <-]. apply calls_only_refl.
Qed.

Lemma preserves_load_transition tp : preserves calls_only (load_transition tp).
Proof.
  intros c a c'. unfold load_transition.
  destruct (arrays (mem c) !! tp.1) as [arr|]; [simpl|done].
  destruct (arr !! tp.2); intros [= <- <-]. apply calls_only_refl.
Qed.

Lemma preserves_load_event event : preserves calls_only (load_event event).
Proof.
  intros c a c'. unfold load_event.
  destruct (events (mem c) !! event); intros [= <- <-]. apply calls_only_refl.
Qed.

Lemma preserves_tick : preserves calls_only tick.
Proof.
  intros c a c' [= <- <-]. exists []. by rewrite app_nil_r.
Qed.

Lemma preserves_call_guard f d event : preserves calls_only (call_guard f d event).
Proof.
  intros c a c' [= <- <-]. exists [CallGuard f d event].
  split; [by repeat constructor|done].
Qed.

Lemma preserves_call_action f d event : preserves calls_only (call_action f d event).
Proof.
  intros c a c' [= <- <-]. exists [CallAction f d event].
  split; [by repeat constructor|done].
Qed.

Lemma preserves_call_if_set f arg event :
  preserves calls_only arg → preserves calls_only (call_if_set f arg event).
Proof.
  intros Harg. unfold call_if_set. destruct (f =? NULL).
  - apply preserves_ret.
  - apply preserves_bind; [done|]. intros d. apply preserves_call_action.
Qed.

Create HintDb frame discriminated.
Hint Resolve preserves_ret preserves_load_currentState preserves_load_state
  preserves_load_transition preserves_load_event preserves_tick
  preserves_call_guard preserves_call_action : frame.

Local Ltac frame :=
  repeat first
    [ progress eauto with frame
    | apply preserves_bind; [|intros ?]
    | apply preserves_call_if_set
    | match goal with
      | |- preserves _ (if ?b then _ else _) => destruct b
      | |- preserves _ (match ?o with Some _ => _ | None => _ end) => destruct o
      end ].

Lemma preserves_currentState_data fsm : preserves calls_only (currentState_data fsm).
Proof. unfold currentState_data. frame. Qed.

Hint Resolve preserves_currentState_data : frame.

Lemma preserves_find_transition fsm event k :
  ∀ i, preserves calls_only (find_transition fsm event k i).
Proof. induction k as [|k IH]; intros i; simpl; frame. Qed.

Hint Resolve preserves_find_transition : frame.

Lemma step_inv {A B} (op : M W A) (k : A → M W B) c0 c b c' :
  calls_only c0 c → preserves calls_only op →
  bind op k c = Some (b, c') →
  ∃ a c1, calls_only c0 c1 ∧ k a c1 = Some (b, c').
Proof.
  intros C P Hrun. apply bind_inv in Hrun as (a & c1 & E & Hrun).
  exists a, c1. split; [|done]. eapply calls_only_trans; [done|by eapply P].
Qed.

Local Ltac step Hrun C :=
  match type of Hrun with
  | bind ?op ?k ?c = Some _ =>
      let P := fresh "P" in
      assert (preserves calls_only op) as P; [solve [frame]|];
      apply (step_inv op k _ c _ _ C P) in Hrun;
      clear P C; destruct Hrun as (? & ? & C & Hrun)
  end.

(** A run of the handler that returns [false] only called user code; a
    run that returns [true] only called user code and then stored the
    current state of [fsm], once, as its last step. *)
Lemma handle_calls_then_stores fsm event c b c' :
  fsm_handle_event fsm event c = Some (b, c') →
  if b
  then ∃ c1 p, calls_only c c1 ∧
               c' = Build_config (set_currentState fsm p (mem c1))
                      (trace c1 ++ [StoreCurrentState fsm p]) (iterations c1)
  else calls_only c c'.
Proof.
  intros Hrun. unfold fsm_handle_event in Hrun.
  pose proof (calls_only_refl c) as C.
  do 3 step Hrun C.
  match type of Hrun with match ?o with _ => _ end _ = _ => destruct o as [tp|] end;
    [|injection Hrun as <- <-; done].
  do 2 step Hrun C.
  match type of Hrun with (if ?g then _ else _) _ = _ => destruct g end;
    [|injection Hrun as <- <-; done].
  do 9 step Hrun C.
  apply bind_inv in Hrun as ([] & c1 & E & Hrun).
  injection Hrun as <- <-.
  unfold store_currentState in E.
  match type of E with context [machines ?m !! fsm] =>
    destruct (machines m !! fsm); [|done] end.
  injection E as <-. eauto.
Qed.

End Frame.

(** ** The properties of the dispatcher *)

Section Dispatch.
Context {W : Type} `{Callbacks W}.
Implicit Types (c : config W) (m : memory W).

Lemma guard_step_accepts t s event m :
  guard t = NULL ∨ (guard_fn (guard t) (data s) event m).1 = true →
  (guard_step t s event m).1 = true.
Proof.
  unfold guard_step. intros [-> | Hg]; [done|].
  by destruct (guard t =? NULL).
Qed.

Lemma guard_step_present t s event m :
  guard t ≠ NULL → guard_step t s event m = guard_fn (guard t) (data s) event m.
Proof.
  intros Hg. unfold guard_step. by rewrite (proj2 (Z.eqb_neq _ _) Hg).
Qed.

Lemma guard_calls_present t s event :
  guard t ≠ NULL → guard_calls t s event = [CallGuard (guard t) (data s) event].
Proof.
  intros Hg. unfold guard_calls. by rewrite (proj2 (Z.eqb_neq _ _) Hg).
Qed.

Lemma elem_of_guard_calls x t s event :
  x ∈ guard_calls t s event → x = CallGuard (guard t) (data s) event.
Proof.
  unfold guard_calls. destruct (guard t =? NULL).
  - by intros ?%elem_of_nil.
  - by intros ?%list_elem_of_singleton.
Qed.

Lemma elem_of_callback_calls x f d event :
  x ∈ callback_calls f d event → f ≠ NULL ∧ x = CallAction f d event.
Proof.
  unfold callback_calls. destruct (f =? NULL) eqn:Hf.
  - by intros ?%elem_of_nil.
  - intros ?%list_elem_of_singleton. by apply Z.eqb_neq in Hf.
Qed.

Lemma no_match_None e ts :
  Forall (λ t, eventID t ≠ ID e) ts → first_match e ts = None.
Proof. intros Hall. by apply list_find_None. Qed.

(** C1.  When the first transition of the current state for the event has
    no guard, or a guard that returns true, [fsm_handle_event] returns
    true; it calls the exit callback of the current state, then the action
    of the transition, then the entry callback of the target state, each
    once and only if it is set, and nothing else after the guard; then it
    makes the target state the current state of the machine.  The memory it
    leaves is the one those three callbacks produced, one after the other,
    from the memory the guard left, with the current state stored into
    it. *)
Theorem accepted_transition_fires m fsm event cs s arr e i t s' :
  callbacks_keep_topology fsm →
  dispatch_ready m fsm event cs s arr e →
  first_match e (transition_list s arr) = Some (i, t) →
  states m !! nextState t = Some s' →
  guard t = NULL ∨ (guard_fn (guard t) (data s) event m).1 = true →
  ∃ c', fsm_handle_event fsm event (start m) = Some (true, c') ∧
        trace c' = guard_calls t s event ++
                   callback_calls (exitAction s) (data s) event ++
                   callback_calls (action t) (data s) event ++
                   callback_calls (entryAction s') (data s') event ++
                   [StoreCurrentState fsm (nextState t)] ∧
        machines (mem c') !! fsm = Some (Build_state_machine_t (nextState t)) ∧
        mem c' =
          set_currentState fsm (nextState t)
            (callback_step (entryAction s') (data s') event
               (callback_step (action t) (data s) event
                  (callback_step (exitAction s) (data s) event
                     (guard_step t s event m).2))).
  Proof.
intros K Hr Hf Hs' Hg. apply guard_step_accepts in Hg.
eexists. split; [by apply (handle_fires fsm event cs s arr e (start m) i t s')|].
simpl. split_and!.
- unfold fire_calls. by rewrite <- !app_assoc.
- apply lookup_insert_eq.
- done.
  Qed.

(** C2.  When no transition of the current state is for the event (the
    state may have no transition at all), [fsm_handle_event] returns
    false, the memory is what it was, the current state with it, and no
    guard, exit, action or entry callback is called. *)
Theorem unmatched_event_is_ignored m fsm event cs s arr e :
  dispatch_ready m fsm event cs s arr e →
  (numTransitions s ≤ length arr)%nat →
  Forall (λ t, eventID t ≠ ID e) (transition_list s arr) →
  ∃ c', fsm_handle_event fsm event (start m) = Some (false, c') ∧
        mem c' = m ∧
        machines (mem c') !! fsm = Some (Build_state_machine_t cs) ∧
        trace c' = [].
Proof.
  intros Hr Hn Hall. apply no_match_None in Hall.
  eexists. split; [by apply (handle_no_match fsm event cs s arr e (start m))|].
  simpl. by destruct Hr.
Qed.

(** C3.  When the first transition of the current state for the event has
    a guard and the guard returns false, [fsm_handle_event] returns false,
    the current state of the machine is what it was, and the call of the
    guard is the only effect: no exit callback, no action, no entry
    callback, no store. *)
Theorem rejected_transition_changes_nothing m fsm event cs s arr e i t :
  callbacks_keep_topology fsm →
  dispatch_ready m fsm event cs s arr e →
  first_match e (transition_list s arr) = Some (i, t) →
  guard t ≠ NULL →
  (guard_fn (guard t) (data s) event m).1 = false →
  ∃ c', fsm_handle_event fsm event (start m) = Some (false, c') ∧
        machines (mem c') !! fsm = Some (Build_state_machine_t cs) ∧
        trace c' = [CallGuard (guard t) (data s) event] ∧
        (∀ f d ev, CallAction f d ev ∉ trace c') ∧
        (∀ a p, StoreCurrentState a p ∉ trace c') ∧
        mem c' = (guard_fn (guard t) (data s) event m).2.
Proof.
  intros K Hr Hf Hg Hv.
  eexists. split.
  { apply (handle_rejected fsm event cs s arr e (start m) i t); [done..|].
    by rewrite guard_step_present. }
  simpl. rewrite guard_step_present, guard_calls_present by done.
  destruct (K (guard t) (data s) event m) as [_ (_ & _ & Hm)].
  repeat split.
  - rewrite Hm. by destruct Hr.
  - by intros f d ev [=]%list_elem_of_singleton.
  - by intros a p [=]%list_elem_of_singleton.
Qed.

(** The handler on a matching event: it returns the verdict of the guard
    step, after as many iterations as it took to reach the transition. *)
Lemma handle_matched m fsm event cs s arr e i t s' :
  callbacks_keep_topology fsm →
  dispatch_ready m fsm event cs s arr e →
  first_match e (transition_list s arr) = Some (i, t) →
  states m !! nextState t = Some s' →
  ∃ c', fsm_handle_event fsm event (start m) =
          Some ((guard_step t s event m).1, c') ∧
        iterations c' = S i ∧
        trace c' = guard_calls t s event ++
                   (if (guard_step t s event m).1
                    then fire_calls t s s' event ++
                         [StoreCurrentState fsm (nextState t)]
                    else []) ∧
        mem c' = (if (guard_step t s event m).1
                  then set_currentState fsm (nextState t)
                         (fire_steps t s s' event (guard_step t s event m).2)
                  else (guard_step t s event m).2).
Proof.
  intros K Hr Hf Hs'. destruct (guard_step t s event m).1 eqn:Hg.
  - eexists. split;
      [by apply (handle_fires fsm event cs s arr e (start m) i t s')|].
    simpl. by rewrite Nat.add_0_r.
  - eexists. split;
      [by apply (handle_rejected fsm event cs s arr e (start m) i t)|].
    simpl. by rewrite Nat.add_0_r, app_nil_r.
Qed.

(** C4.  When the transition list of the current state has a second
    transition for the event behind the first one, the handler stops its
    search at the first: the outcome is the verdict of the first one's
    guard, false when it rejects, and the trace holds the calls of the
    first transition only, so the guard and the action of the later one
    are not called. *)
Theorem first_duplicate_shadows_later_ones m fsm event cs s arr e i t j t2 s' :
  callbacks_keep_topology fsm →
  dispatch_ready m fsm event cs s arr e →
  first_match e (transition_list s arr) = Some (i, t) →
  transition_list s arr !! j = Some t2 → (i < j)%nat → eventID t2 = ID e →
  states m !! nextState t = Some s' →
  ∃ b c', fsm_handle_event fsm event (start m) = Some (b, c') ∧
          b = (guard_step t s event m).1 ∧
          iterations c' = S i ∧
          trace c' = guard_calls t s event ++
                     (if b then fire_calls t s s' event ++
                                [StoreCurrentState fsm (nextState t)]
                      else []) ∧
          (guard t2 ≠ guard t → ∀ d ev, CallGuard (guard t2) d ev ∉ trace c') ∧
          (action t2 ≠ exitAction s → action t2 ≠ action t →
           action t2 ≠ entryAction s' →
           ∀ d ev, CallAction (action t2) d ev ∉ trace c') ∧
          (b = false →
           machines (mem c') !! fsm = Some (Build_state_machine_t cs)).
Proof.
  intros K Hr Hf Hj Hij Hid Hs'.
  destruct (handle_matched m fsm event cs s arr e i t s' K Hr Hf Hs')
    as (c' & Hrun & Hit & Htr & Hmem).
  exists (guard_step t s event m).1, c'.
  repeat split; [done..| | |].
  - intros Hne d ev. rewrite Htr. intros [Hin|Hin]%elem_of_app.
    + apply elem_of_guard_calls in Hin. congruence.
    + destruct (guard_step t s event m).1; [|by apply elem_of_nil in Hin].
      unfold fire_calls in Hin. rewrite !elem_of_app in Hin.
      destruct Hin as [[Hin|[Hin|Hin]]|Hin];
        [apply elem_of_callback_calls in Hin as [_ ?]..
        |apply list_elem_of_singleton in Hin]; done.
  - intros N1 N2 N3 d ev. rewrite Htr. intros [Hin|Hin]%elem_of_app.
    + by apply elem_of_guard_calls in Hin.
    + destruct (guard_step t s event m).1; [|by apply elem_of_nil in Hin].
      unfold fire_calls in Hin. rewrite !elem_of_app in Hin.
      destruct Hin as [[Hin|[Hin|Hin]]|Hin];
        [apply elem_of_callback_calls in Hin as [_ ?]..
        |apply list_elem_of_singleton in Hin]; congruence.
  - intros Hb. rewrite Hmem, Hb.
    destruct (guard_step_topology fsm t s event m K) as (_ & _ & ->).
    by destruct Hr.
Qed.

(** C5.  In a dispatch that fires, the exit callback and the action of the
    transition are run with the payload of the state that is left, the
    entry callback with the payload of the target state, all three with
    the event the handler was given; the action sees the payload of the
    old state. *)
Theorem callbacks_receive_their_payloads m fsm event cs s arr e i t s' :
  callbacks_keep_topology fsm →
  dispatch_ready m fsm event cs s arr e →
  first_match e (transition_list s arr) = Some (i, t) →
  states m !! nextState t = Some s' →
  guard t = NULL ∨ (guard_fn (guard t) (data s) event m).1 = true →
  ∃ c', fsm_handle_event fsm event (start m) = Some (true, c') ∧
        mem c' =
          set_currentState fsm (nextState t)
            (callback_step (entryAction s') (data s') event
               (callback_step (action t) (data s) event
                  (callback_step (exitAction s) (data s) event
                     (guard_step t s event m).2))) ∧
        (∀ f d ev, CallAction f d ev ∈ trace c' →
           ev = event ∧
           ((f = exitAction s ∨ f = action t) ∧ d = data s ∨
            f = entryAction s' ∧ d = data s')) ∧
        (action t ≠ NULL → CallAction (action t) (data s) event ∈ trace c').
Proof.
  intros K Hr Hf Hs' Hg. apply guard_step_accepts in Hg.
  destruct (handle_matched m fsm event cs s arr e i t s' K Hr Hf Hs')
    as (c' & Hrun & _ & Htr & Hmem).
  rewrite Hg in *. exists c'. split; [done|]. split; [done|]. split.
  - intros f d ev. rewrite Htr. unfold fire_calls. rewrite !elem_of_app.
    intros [Hin|[[Hin|[Hin|Hin]]|Hin]];
      [by apply elem_of_guard_calls in Hin
      |apply elem_of_callback_calls in Hin as [_ [= -> -> ->]]; auto..
      |by apply list_elem_of_singleton in Hin].
  - intros Ha. rewrite Htr. unfold fire_calls, callback_calls at 2.
    rewrite (proj2 (Z.eqb_neq _ _) Ha). rewrite !elem_of_app.
    right. left. right. left. by apply list_elem_of_singleton.
Qed.

(** C6.  Once a transition matches, its guard, if it has one, is called
    exactly once, with the payload of the current state and the event,
    before anything else is called, on the memory the handler was entered
    with; its verdict is the result of the handler, and the transition
    fires on the memory the guard left when the verdict is true, and not at
    all when it is false.  Without a guard nothing is asked and the
    transition fires: exit callback, action and entry callback run on the
    memory the handler was entered with, and the target becomes the current
    state. *)
Theorem guard_is_evaluated_once m fsm event cs s arr e i t s' :
  callbacks_keep_topology fsm →
  dispatch_ready m fsm event cs s arr e →
  first_match e (transition_list s arr) = Some (i, t) →
  states m !! nextState t = Some s' →
  ∃ b c', fsm_handle_event fsm event (start m) = Some (b, c') ∧
          (guard t = NULL →
             b = true ∧ filter (λ x, is_guard_call x) (trace c') = [] ∧
             trace c' = fire_calls t s s' event ++
                        [StoreCurrentState fsm (nextState t)] ∧
             mem c' = set_currentState fsm (nextState t)
                        (fire_steps t s s' event m) ∧
             machines (mem c') !! fsm =
               Some (Build_state_machine_t (nextState t))) ∧
          (guard t ≠ NULL →
             b = (guard_fn (guard t) (data s) event m).1 ∧
             filter (λ x, is_guard_call x) (trace c') =
               [CallGuard (guard t) (data s) event] ∧
             head (trace c') = Some (CallGuard (guard t) (data s) event) ∧
             trace c' = CallGuard (guard t) (data s) event ::
                        (if b
                         then fire_calls t s s' event ++
                              [StoreCurrentState fsm (nextState t)]
                         else []) ∧
             mem c' = (if b
                       then set_currentState fsm (nextState t)
                              (fire_steps t s s' event
                                 (guard_fn (guard t) (data s) event m).2)
                       else (guard_fn (guard t) (data s) event m).2)).
Proof.
  intros K Hr Hf Hs'.
  destruct (handle_matched m fsm event cs s arr e i t s' K Hr Hf Hs')
    as (c' & Hrun & _ & Htr & Hmem).
  exists (guard_step t s event m).1, c'. split; [done|].
  assert (filter (λ x, is_guard_call x)
            (if (guard_step t s event m).1
             then fire_calls t s s' event ++ [StoreCurrentState fsm (nextState t)]
             else []) = []) as Hrest.
  { destruct (guard_step t s event m).1; [|done].
    unfold fire_calls, callback_calls. rewrite !filter_app.
    by destruct (exitAction s =? NULL), (action t =? NULL),
                (entryAction s' =? NULL). }
  rewrite Htr, Hmem, filter_app, Hrest, app_nil_r. split.
  - intros Hg. unfold guard_step, guard_calls. rewrite Hg. simpl.
    split_and!; [done..|]. apply lookup_insert_eq.
  - intros Hg. rewrite guard_step_present, guard_calls_present by done. done.
Qed.

(** C10.  A transition from a state to itself is like any other: when it
    is the first match and its guard is absent or returns true, the
    handler returns true and calls the exit callback of the state, the
    action and the entry callback of the same state, each once, in that
    order, each with the payload of that state; the current state is the
    same state afterwards, and the memory is the one the three callbacks
    produced, one after the other, from the memory the guard left. *)
Theorem self_transition_runs_exit_action_entry m fsm event cs s arr e i t :
  callbacks_keep_topology fsm →
  dispatch_ready m fsm event cs s arr e →
  first_match e (transition_list s arr) = Some (i, t) →
  nextState t = cs →
  guard t = NULL ∨ (guard_fn (guard t) (data s) event m).1 = true →
  ∃ c', fsm_handle_event fsm event (start m) = Some (true, c') ∧
        trace c' = guard_calls t s event ++
                   callback_calls (exitAction s) (data s) event ++
                   callback_calls (action t) (data s) event ++
                   callback_calls (entryAction s) (data s) event ++
                   [StoreCurrentState fsm cs] ∧
        machines (mem c') !! fsm = Some (Build_state_machine_t cs) ∧
        mem c' =
          set_currentState fsm cs
            (callback_step (entryAction s) (data s) event
               (callback_step (action t) (data s) event
                  (callback_step (exitAction s) (data s) event
                     (guard_step t s event m).2))).
  Proof.
intros K Hr Hf Hself Hg. apply guard_step_accepts in Hg.
  assert (states m !! nextState t = Some s) as Hs' by (rewrite Hself; by destruct Hr).
  destruct (handle_matched m fsm event cs s arr e i t s K Hr Hf Hs')
    as (c' & Hrun & _ & Htr & Hmem).
  rewrite Hg, Hself in *. exists c'. split; [done|]. split_and!.
  - rewrite Htr. unfold fire_calls. by rewrite <- !app_assoc.
  - rewrite Hmem. apply lookup_insert_eq.
  - done.
Qed.

Lemma replay_topology fsm calls : ∀ m,
  callbacks_keep_topology fsm → Forall (λ x, is_call x) calls →
  same_topology fsm m (replay calls m).
Proof.
  induction calls as [|x calls IH]; intros m K Hall.
  - apply same_topology_refl.
  - apply Forall_cons in Hall as [Hx Hall]. unfold replay. simpl.
    eapply same_topology_trans; [|by apply IH].
    destruct x as [f d ev|f d ev|a p]; [apply K..|done].
Qed.

Lemma calls_have_no_store calls :
  Forall (λ x, is_call x) calls → filter (λ x, is_store x) calls = [].
Proof.
  induction 1 as [|x calls Hx _ IH]; [done|].
  rewrite filter_cons, IH. by destruct x.
Qed.

(** C7.  Whatever a run of [fsm_handle_event] returns, its trace is a list
    of calls of user code, followed by one store into the current state of
    the machine when it returns true and by nothing when it returns false.
    The states, the transition arrays, the events and the user's memory
    are exactly as those calls left them, and so are the machines, but for
    the one store.  Where the callbacks leave the topology and the machine
    alone, the topology is what it was before the run, and so is the
    current state of the machine when the handler returns false. *)
Theorem handler_writes_only_the_current_state m fsm event b c' :
  fsm_handle_event fsm event (start m) = Some (b, c') →
  ∃ calls,
    Forall (λ x, is_call x) calls ∧
    states (mem c') = states (replay calls m) ∧
    arrays (mem c') = arrays (replay calls m) ∧
    events (mem c') = events (replay calls m) ∧
    user (mem c') = user (replay calls m) ∧
    (if b
     then ∃ p, trace c' = calls ++ [StoreCurrentState fsm p] ∧
               machines (mem c') =
                 <[fsm := Build_state_machine_t p]> (machines (replay calls m))
     else trace c' = calls ∧ machines (mem c') = machines (replay calls m)) ∧
    length (filter (λ x, is_store x) (trace c')) = (if b then 1 else 0)%nat ∧
    (callbacks_keep_topology fsm →
       states (mem c') = states m ∧ arrays (mem c') = arrays m ∧
       (b = false → machines (mem c') !! fsm = machines m !! fsm)).
Proof.
  intros Hrun. apply handle_calls_then_stores in Hrun. destruct b.
  - destruct Hrun as (c1 & p & (calls & Hall & Htr & Hmem) & ->).
    simpl in *. exists calls. rewrite Hmem, Htr.
    split_and!; [done..|by eauto| |].
    + by rewrite filter_app, calls_have_no_store.
    + intros K. destruct (replay_topology fsm calls m K Hall) as (-> & -> & _).
      by split_and!.
  - destruct Hrun as (calls & Hall & Htr & Hmem).
    simpl in *. exists calls. rewrite Hmem, Htr.
    split_and!; [done..| |].
    + by rewrite calls_have_no_store.
    + intros K. by destruct (replay_topology fsm calls m K Hall) as (-> & -> & ->).
Qed.

(** C8.  On a machine whose current state is well formed (its count is
    within its array and the targets of its transitions are states), the
    handler returns a boolean, after at most [numTransitions] iterations
    of its search loop. *)
Theorem handler_terminates m fsm event cs s arr e :
  callbacks_keep_topology fsm →
  dispatch_ready m fsm event cs s arr e →
  (numTransitions s ≤ length arr)%nat →
  Forall (λ t, is_Some (states m !! nextState t)) (transition_list s arr) →
  ∃ b c', fsm_handle_event fsm event (start m) = Some (b, c') ∧
          (iterations c' ≤ numTransitions s)%nat.
Proof.
  intros K Hr Hn Htargets.
  destruct (first_match e (transition_list s arr)) as [[i t]|] eqn:Hf.
  - assert (is_Some (states m !! nextState t)) as [s' Hs'].
    { unfold first_match in Hf. apply list_find_Some in Hf as (Hl & _).
      eapply Forall_lookup_1 in Htargets; done. }
    destruct (handle_matched m fsm event cs s arr e i t s' K Hr Hf Hs')
      as (c' & Hrun & Hit & _).
    apply first_match_lookup in Hf as (_ & Hi & _).
    exists (guard_step t s event m).1, c'. split; [done|lia].
  - eexists _, _. split;
      [by apply (handle_no_match fsm event cs s arr e (start m))|].
    simpl. lia.
Qed.

(** C9.  Two runs of the handler on the same machine in the same current
    state, over the same topology, for the same event, return the same
    boolean, leave the machine in the same current state and make the same
    calls with the same arguments in the same order, whatever else the two
    memories hold, when the guards are functions of their arguments. *)
Theorem handler_is_deterministic m1 m2 fsm event cs s arr e :
  callbacks_keep_topology fsm →
  guards_depend_on_arguments →
  same_topology fsm m1 m2 →
  events m1 !! event = events m2 !! event →
  dispatch_ready m1 fsm event cs s arr e →
  (numTransitions s ≤ length arr)%nat →
  Forall (λ t, is_Some (states m1 !! nextState t)) (transition_list s arr) →
  ∃ b c1 c2,
    fsm_handle_event fsm event (start m1) = Some (b, c1) ∧
    fsm_handle_event fsm event (start m2) = Some (b, c2) ∧
    trace c1 = trace c2 ∧
    machines (mem c1) !! fsm = machines (mem c2) !! fsm.
Proof.
  intros K G Hsame Hev Hr1 Hn Htargets.
  pose proof Hsame as (Hst & Har & Hma).
  assert (dispatch_ready m2 fsm event cs s arr e) as Hr2.
  { destruct Hr1. split; congruence. }
  destruct (first_match e (transition_list s arr)) as [[i t]|] eqn:Hf.
  - assert (is_Some (states m1 !! nextState t)) as [s' Hs1].
    { unfold first_match in Hf. apply list_find_Some in Hf as (Hl & _).
      eapply Forall_lookup_1 in Htargets; done. }
    assert (states m2 !! nextState t = Some s') as Hs2 by congruence.
    assert ((guard_step t s event m1).1 = (guard_step t s event m2).1) as Hg.
    { unfold guard_step. destruct (guard t =? NULL); [done|by apply G]. }
    destruct (handle_matched m1 fsm event cs s arr e i t s' K Hr1 Hf Hs1)
      as (c1 & Hrun1 & _ & Htr1 & Hmem1).
    destruct (handle_matched m2 fsm event cs s arr e i t s' K Hr2 Hf Hs2)
      as (c2 & Hrun2 & _ & Htr2 & Hmem2).
    rewrite <- Hg in *.
    exists (guard_step t s event m1).1, c1, c2.
    repeat split; [done..|congruence|].
    rewrite Hmem1, Hmem2. destruct (guard_step t s event m1).1.
    + simpl. by rewrite !lookup_insert_eq.
    + destruct (guard_step_topology fsm t s event m1 K) as (_ & _ & ->).
      destruct (guard_step_topology fsm t s event m2 K) as (_ & _ & ->).
      by rewrite Hma.
  - exists false. eexists _, _.
    split; [by apply (handle_no_match fsm event cs s arr e (start m1))|].
    split; [by apply (handle_no_match fsm event cs s arr e (start m2))|].
    simpl. by rewrite Hma.
Qed.

End Dispatch.

(** ** The door and the lock, run *)

Lemma demo_code_keeps_topology fsm : @callbacks_keep_topology _ Demo.code fsm.
Proof. intros f d ev m. by split. Qed.

Lemma demo_guards_depend_on_arguments : @guards_depend_on_arguments _ Demo.code.
Proof.
  intros f d ev m1 m2 _ _ Hev. simpl. unfold Demo.payload_is_42.
  by rewrite Hev.
Qed.

Lemma door_ready :
  dispatch_ready Demo.boot Demo.door 400 Demo.doorClosedState
    Demo.doorClosed [Demo.open_it] Demo.open_event.
Proof. by split. Qed.

Lemma door_ready_other :
  dispatch_ready Demo.boot Demo.door 404 Demo.doorClosedState
    Demo.doorClosed [Demo.open_it] Demo.other.
Proof. by split. Qed.

Lemma lock_ready event e :
  Demo.inbox !! event = Some e →
  dispatch_ready Demo.boot Demo.lock event Demo.lockedState
    Demo.locked Demo.lockedTable e.
Proof. by split. Qed.

(** The usage example of the header: the closed door is opened. *)
Lemma door_opens :
  fsm_handle_event Demo.door 400 (start Demo.boot) = Some (true, Demo.door_opened).
Proof. vm_compute. reflexivity. Qed.

(** An open door does not open again. *)
Lemma door_stays_open :
  fsm_handle_event Demo.door 400 (start (mem Demo.door_opened)) =
    Some (false, Build_config (mem Demo.door_opened) [] 1).
Proof. vm_compute. reflexivity. Qed.

(** Why the callbacks must leave the machines alone: the handler reads
    [fsm->currentState] again for every call, so an exit callback that moves
    the door has the action run with the payload of the state it moved
    to. *)
Lemma rogue_exit_changes_the_payload_of_the_action :
  ∃ c', @fsm_handle_event _ Demo.rogue Demo.door 400 (start Demo.boot) = Some (true, c') ∧
        trace c' = [CallAction Demo.closedExit Demo.STATE_CLOSED 400;
                    CallAction Demo.doorOpenedAction Demo.STATE_LOCKED 400;
                    CallAction Demo.openEntry Demo.STATE_OPEN 400;
                    StoreCurrentState Demo.door Demo.doorOpenState].
Proof. eexists. split; [vm_compute; reflexivity|reflexivity]. Qed.

Lemma accepted_transition_fires_witness :
  ∃ c', fsm_handle_event Demo.door 400 (start Demo.boot) = Some (true, c') ∧
        trace c' = [CallAction Demo.closedExit Demo.STATE_CLOSED 400;
                    CallAction Demo.doorOpenedAction Demo.STATE_CLOSED 400;
                    CallAction Demo.openEntry Demo.STATE_OPEN 400;
                    StoreCurrentState Demo.door Demo.doorOpenState] ∧
        machines (mem c') !! Demo.door = Some (Build_state_machine_t Demo.doorOpenState) ∧
        mem c' =
          set_currentState Demo.door Demo.doorOpenState
            (Demo.note Demo.openEntry Demo.STATE_OPEN
               (Demo.note Demo.doorOpenedAction Demo.STATE_CLOSED
                  (Demo.note Demo.closedExit Demo.STATE_CLOSED Demo.boot))).
Proof.
  refine (accepted_transition_fires Demo.boot Demo.door 400 Demo.doorClosedState
           Demo.doorClosed [Demo.open_it] Demo.open_event 0%nat Demo.open_it
           Demo.doorOpen _ _ _ _ _).
  - apply demo_code_keeps_topology.
  - exact door_ready.
  - reflexivity.
  - reflexivity.
  - left. reflexivity.
Defined.

Lemma unmatched_event_is_ignored_witness :
  ∃ c', fsm_handle_event Demo.door 404 (start Demo.boot) = Some (false, c') ∧
        mem c' = Demo.boot ∧
        machines (mem c') !! Demo.door = Some (Build_state_machine_t Demo.doorClosedState) ∧
        trace c' = [].
Proof.
  refine (unmatched_event_is_ignored Demo.boot Demo.door 404 Demo.doorClosedState
           Demo.doorClosed [Demo.open_it] Demo.other _ _ _).
  - exact door_ready_other.
  - simpl. lia.
  - by repeat constructor.
Defined.

Lemma rejected_transition_changes_nothing_witness :
  ∃ c', fsm_handle_event Demo.lock 401 (start Demo.boot) = Some (false, c') ∧
        machines (mem c') !! Demo.lock = Some (Build_state_machine_t Demo.lockedState) ∧
        trace c' = [CallGuard Demo.keyIs42 Demo.STATE_LOCKED 401] ∧
        (∀ f d ev, CallAction f d ev ∉ trace c') ∧
        (∀ a p, StoreCurrentState a p ∉ trace c') ∧
        mem c' = Demo.boot.
Proof.
  refine (rejected_transition_changes_nothing Demo.boot Demo.lock 401 Demo.lockedState
            Demo.locked Demo.lockedTable Demo.wrong_key 0%nat Demo.unlock_it _ _ _ _ _).
  - apply demo_code_keeps_topology.
  - by apply lock_ready.
  - reflexivity.
  - discriminate.
  - reflexivity.
Defined.

Lemma first_duplicate_shadows_later_ones_witness :
  ∃ b c', fsm_handle_event Demo.lock 401 (start Demo.boot) = Some (b, c') ∧
          b = (guard_step Demo.unlock_it Demo.locked 401 Demo.boot).1 ∧
          iterations c' = 1%nat ∧
          trace c' = guard_calls Demo.unlock_it Demo.locked 401 ++
                     (if b
                      then fire_calls Demo.unlock_it Demo.locked Demo.unlocked 401 ++
                           [StoreCurrentState Demo.lock Demo.unlockedState]
                      else []) ∧
          (guard Demo.force_it ≠ guard Demo.unlock_it →
           ∀ d ev, CallGuard (guard Demo.force_it) d ev ∉ trace c') ∧
          (action Demo.force_it ≠ exitAction Demo.locked →
           action Demo.force_it ≠ action Demo.unlock_it →
           action Demo.force_it ≠ entryAction Demo.unlocked →
           ∀ d ev, CallAction (action Demo.force_it) d ev ∉ trace c') ∧
          (b = false →
           machines (mem c') !! Demo.lock = Some (Build_state_machine_t Demo.lockedState)).
Proof.
  refine (first_duplicate_shadows_later_ones Demo.boot Demo.lock 401 Demo.lockedState
           Demo.locked Demo.lockedTable Demo.wrong_key 0%nat Demo.unlock_it
           1%nat Demo.force_it Demo.unlocked _ _ _ _ _ _ _).
  - apply demo_code_keeps_topology.
  - by apply lock_ready.
  - reflexivity.
  - reflexivity.
  - lia.
  - reflexivity.
  - reflexivity.
Defined.

Lemma callbacks_receive_their_payloads_witness :
  ∃ c', fsm_handle_event Demo.door 400 (start Demo.boot) = Some (true, c') ∧
        mem c' =
          set_currentState Demo.door Demo.doorOpenState
            (Demo.note Demo.openEntry Demo.STATE_OPEN
               (Demo.note Demo.doorOpenedAction Demo.STATE_CLOSED
                  (Demo.note Demo.closedExit Demo.STATE_CLOSED Demo.boot))) ∧
        (∀ f d ev, CallAction f d ev ∈ trace c' →
           ev = 400 ∧
           ((f = Demo.closedExit ∨ f = Demo.doorOpenedAction) ∧ d = Demo.STATE_CLOSED ∨
            f = Demo.openEntry ∧ d = Demo.STATE_OPEN)) ∧
        (Demo.doorOpenedAction ≠ NULL →
         CallAction Demo.doorOpenedAction Demo.STATE_CLOSED 400 ∈ trace c').
Proof.
  refine (callbacks_receive_their_payloads Demo.boot Demo.door 400 Demo.doorClosedState
           Demo.doorClosed [Demo.open_it] Demo.open_event 0%nat Demo.open_it
           Demo.doorOpen _ _ _ _ _).
  - apply demo_code_keeps_topology.
  - exact door_ready.
  - reflexivity.
  - reflexivity.
  - left. reflexivity.
Defined.

Lemma guard_is_evaluated_once_witness :
  ∃ b c', fsm_handle_event Demo.lock 402 (start Demo.boot) = Some (b, c') ∧
          (Demo.keyIs42 = NULL →
             b = true ∧ filter (λ x, is_guard_call x) (trace c') = [] ∧
             trace c' = fire_calls Demo.unlock_it Demo.locked Demo.unlocked 402 ++
                        [StoreCurrentState Demo.lock Demo.unlockedState] ∧
             mem c' = set_currentState Demo.lock Demo.unlockedState
                        (fire_steps Demo.unlock_it Demo.locked Demo.unlocked 402
                           Demo.boot) ∧
             machines (mem c') !! Demo.lock =
               Some (Build_state_machine_t Demo.unlockedState)) ∧
          (Demo.keyIs42 ≠ NULL →
             b = true ∧
             filter (λ x, is_guard_call x) (trace c') =
               [CallGuard Demo.keyIs42 Demo.STATE_LOCKED 402] ∧
             head (trace c') = Some (CallGuard Demo.keyIs42 Demo.STATE_LOCKED 402) ∧
             trace c' = CallGuard Demo.keyIs42 Demo.STATE_LOCKED 402 ::
                        (if b
                         then fire_calls Demo.unlock_it Demo.locked Demo.unlocked 402 ++
                              [StoreCurrentState Demo.lock Demo.unlockedState]
                         else []) ∧
             mem c' = (if b
                       then set_currentState Demo.lock Demo.unlockedState
                              (fire_steps Demo.unlock_it Demo.locked Demo.unlocked 402
                                 Demo.boot)
                       else Demo.boot)).
Proof.
  refine (guard_is_evaluated_once Demo.boot Demo.lock 402 Demo.lockedState
           Demo.locked Demo.lockedTable Demo.right_key 0%nat Demo.unlock_it
           Demo.unlocked _ _ _ _).
  - apply demo_code_keeps_topology.
  - by apply lock_ready.
  - reflexivity.
  - reflexivity.
Defined.

Lemma handler_writes_only_the_current_state_witness :
  ∃ calls,
    Forall (λ x, is_call x) calls ∧
    states (mem Demo.door_opened) = states (replay calls Demo.boot) ∧
    arrays (mem Demo.door_opened) = arrays (replay calls Demo.boot) ∧
    events (mem Demo.door_opened) = events (replay calls Demo.boot) ∧
    user (mem Demo.door_opened) = user (replay calls Demo.boot) ∧
    (∃ p, trace Demo.door_opened = calls ++ [StoreCurrentState Demo.door p] ∧
          machines (mem Demo.door_opened) =
            <[Demo.door := Build_state_machine_t p]> (machines (replay calls Demo.boot))) ∧
    length (filter (λ x, is_store x) (trace Demo.door_opened)) = 1%nat ∧
    (callbacks_keep_topology Demo.door →
       states (mem Demo.door_opened) = states Demo.boot ∧
       arrays (mem Demo.door_opened) = arrays Demo.boot ∧
       (true = false →
        machines (mem Demo.door_opened) !! Demo.door = machines Demo.boot !! Demo.door)).
Proof.
  refine (handler_writes_only_the_current_state Demo.boot Demo.door 400 true
           Demo.door_opened _).
  vm_compute. reflexivity.
Defined.

Lemma handler_terminates_witness :
  ∃ b c', fsm_handle_event Demo.lock 403 (start Demo.boot) = Some (b, c') ∧
          (iterations c' ≤ 3)%nat.
Proof.
  refine (handler_terminates Demo.boot Demo.lock 403 Demo.lockedState
           Demo.locked Demo.lockedTable Demo.ping _ _ _ _).
  - apply demo_code_keeps_topology.
  - by apply lock_ready.
  - simpl. lia.
  - repeat constructor; by eexists.
Defined.

Lemma handler_is_deterministic_witness :
  ∃ b c1 c2,
    fsm_handle_event Demo.lock 402 (start Demo.boot) = Some (b, c1) ∧
    fsm_handle_event Demo.lock 402 (start Demo.later) = Some (b, c2) ∧
    trace c1 = trace c2 ∧
    machines (mem c1) !! Demo.lock = machines (mem c2) !! Demo.lock.
Proof.
  refine (handler_is_deterministic Demo.boot Demo.later Demo.lock 402 Demo.lockedState
           Demo.locked Demo.lockedTable Demo.right_key _ _ _ _ _ _ _).
  - apply demo_code_keeps_topology.
  - exact demo_guards_depend_on_arguments.
  - by split.
  - reflexivity.
  - by apply lock_ready.
  - simpl. lia.
  - repeat constructor; by eexists.
Defined.

Lemma self_transition_runs_exit_action_entry_witness :
  ∃ c', fsm_handle_event Demo.lock 403 (start Demo.boot) = Some (true, c') ∧
        trace c' = [CallAction Demo.lockedExit Demo.STATE_LOCKED 403;
                    CallAction Demo.pingAction Demo.STATE_LOCKED 403;
                    CallAction Demo.lockedEntry Demo.STATE_LOCKED 403;
                    StoreCurrentState Demo.lock Demo.lockedState] ∧
        machines (mem c') !! Demo.lock = Some (Build_state_machine_t Demo.lockedState) ∧
        mem c' =
          set_currentState Demo.lock Demo.lockedState
            (Demo.note Demo.lockedEntry Demo.STATE_LOCKED
               (Demo.note Demo.pingAction Demo.STATE_LOCKED
                  (Demo.note Demo.lockedExit Demo.STATE_LOCKED Demo.boot))).
Proof.
  refine (self_transition_runs_exit_action_entry Demo.boot Demo.lock 403
           Demo.lockedState Demo.locked Demo.lockedTable Demo.ping 2%nat Demo.ping_it _ _ _ _ _).
  - apply demo_code_keeps_topology.
  - by apply lock_ready.
  - reflexivity.
  - reflexivity.
  - left. reflexivity.
Defined.

(** ** Edges of the handler: empty tables, faulty tables, silent
    transitions *)

Section Edges.
Context {W : Type} `{Callbacks W}.
Implicit Types (c : config W) (m : memory W).

(** X1.  In a state with no transitions the loop body never runs: the
    handler returns false and leaves the memory as it is for every event
    pointer, also one that points to no event, and whatever the
    [transitions] field of the state holds. *)
Theorem state_without_transitions_ignores_events m fsm event cs s :
  machines m !! fsm = Some (Build_state_machine_t cs) →
  states m !! cs = Some s →
  numTransitions s = 0%nat →
  fsm_handle_event fsm event (start m) = Some (false, start m).
Proof.
  intros Hm Hs Hn. unfold fsm_handle_event.
  rewrite (bind_Some _ _ _ _ _ (load_currentState_Some fsm (start m) cs Hm)).
  rewrite (bind_Some _ _ _ _ _ (load_state_Some cs (start m) s Hs)).
  by rewrite Hn.
Qed.

Lemma find_transition_overrun fsm event cs s arr e k : ∀ i c,
  dispatch_ready (mem c) fsm event cs s arr e →
  (i ≤ length arr < i + k)%nat →
  Forall (λ t, eventID t ≠ ID e) arr →
  find_transition fsm event k i c = None.
Proof.
  induction k as [|k IH]; intros i c Hr Hi Hall; [lia|].
  destruct (arr !! i) as [x|] eqn:Hx.
  - rewrite (find_transition_step fsm event cs s arr e c k i x Hr Hx).
    assert (eventID x ≠ ID e) as Hne by by eapply Forall_lookup_1 in Hall.
    rewrite (proj2 (Z.eqb_neq _ _) Hne).
    apply lookup_lt_Some in Hx. apply IH; [done|lia|done].
  - by apply (find_transition_oob fsm event cs s arr e).
Qed.

(** X2.  The handler trusts [numTransitions]: when the count is larger than
    the array and no element of the array is for the event, the search
    reads the element behind the array, which is undefined behaviour. *)
Theorem overlong_count_reads_behind_the_array m fsm event cs s arr e :
  dispatch_ready m fsm event cs s arr e →
  (length arr < numTransitions s)%nat →
  Forall (λ t, eventID t ≠ ID e) arr →
  fsm_handle_event fsm event (start m) = None.
Proof.
  intros Hr Hn Hall. pose proof Hr as [Hm Hs Ha He]. unfold fsm_handle_event.
  rewrite (bind_Some _ _ _ _ _ (load_currentState_Some fsm (start m) cs Hm)).
  rewrite (bind_Some _ _ _ _ _ (load_state_Some cs (start m) s Hs)).
  apply bind_None.
  apply (find_transition_overrun fsm event cs s arr e); [done|lia|done].
Qed.

Local Ltac search_and_guard fsm event cs s arr e Hr Hf Hl :=
  pose proof Hr as [?Hm ?Hs ?Ha ?He];
  unfold fsm_handle_event;
  erewrite bind_Some; [|eapply load_currentState_Some; eassumption];
  erewrite bind_Some; [|eapply load_state_Some; eassumption];
  erewrite bind_Some;
    [|eapply (find_transition_found fsm event cs s arr e);
      [exact Hr|rewrite drop_0; exact Hf]];
  cbv beta iota;
  erewrite bind_Some; [|eapply load_transition_Some; [eassumption|exact Hl]];
  erewrite bind_Some; [|eapply (guard_Some fsm event cs s); eassumption];
  cbn [mem trace iterations start app Nat.add].

Lemma same_source_refl fsm cs a m : same_source fsm cs a m m.
Proof. by repeat split. Qed.

Lemma same_source_trans fsm cs a m1 m2 m3 :
  same_source fsm cs a m1 m2 → same_source fsm cs a m2 m3 →
  same_source fsm cs a m1 m3.
Proof. intros (?&?&?) (?&?&?). repeat split; congruence. Qed.

Lemma callback_step_source fsm cs a f d ev m :
  callbacks_keep_source fsm cs a → same_source fsm cs a m (callback_step f d ev m).
Proof.
  intros K. unfold callback_step.
  destruct (f =? NULL); [apply same_source_refl | apply K].
Qed.

Lemma guard_step_source fsm cs a t s ev m :
  callbacks_keep_source fsm cs a → same_source fsm cs a m (guard_step t s ev m).2.
Proof.
  intros K. unfold guard_step.
  destruct (guard t =? NULL); [apply same_source_refl | apply K].
Qed.

(** X3.  The target of a transition is looked at only when the transition
    fires, and then in the memory that the exit callback and the action have
    left.  When the guard rejects, the handler returns false whether the
    target is a state or not.  When the guard accepts, or there is none, the
    exit callback and the action run first; if [nextState] addresses no
    state in the memory they leave, the read of its entry callback is
    undefined behaviour, and if it addresses one there, also one that the
    action has only just put there, the transition completes.  The callbacks
    are only required to leave the machine, its current state and the array
    of that state alone. *)
Theorem dangling_target_matters_only_when_taken m fsm event cs s arr e i t :
  callbacks_keep_source fsm cs (transitions s) →
  dispatch_ready m fsm event cs s arr e →
  first_match e (transition_list s arr) = Some (i, t) →
  fsm_handle_event fsm event (start m) =
    if (guard_step t s event m).1
    then
      match states (after_exit_and_action t s event (guard_step t s event m).2)
              !! nextState t with
      | None => None
      | Some s' =>
          Some (true,
                Build_config
                  (set_currentState fsm (nextState t)
                     (callback_step (entryAction s') (data s') event
                        (after_exit_and_action t s event (guard_step t s event m).2)))
                  (guard_calls t s event ++
                   callback_calls (exitAction s) (data s) event ++
                   callback_calls (action t) (data s) event ++
                   callback_calls (entryAction s') (data s') event ++
                   [StoreCurrentState fsm (nextState t)])
                  (S i))
      end
    else Some (false, Build_config (guard_step t s event m).2
                        (guard_calls t s event) (S i)).
Proof.
  intros K Hr Hf.
  destruct (guard_step t s event m).1 eqn:Hg.
  - destruct (first_match_lookup _ _ _ _ _ Hf) as (Hl & Hi & Hid).
    search_and_guard fsm event cs s arr e Hr Hf Hl. rewrite Hg.
    unfold after_exit_and_action.
    set (m1 := (guard_step t s event m).2).
    set (m2 := callback_step (exitAction s) (data s) event m1).
    set (m3 := callback_step (action t) (data s) event m2).
    assert (same_source fsm cs (transitions s) m m1) as T1
      by by apply guard_step_source.
    assert (same_source fsm cs (transitions s) m m2) as T2
      by (eapply same_source_trans; [done|by apply callback_step_source]).
    assert (same_source fsm cs (transitions s) m m3) as T3
      by (eapply same_source_trans; [done|by apply callback_step_source]).
    destruct T1 as (M1 & S1 & A1), T2 as (M2 & S2 & A2), T3 as (M3 & S3 & A3).
    simpl in Hm, Hs, Ha.
    erewrite bind_Some; [|apply load_currentState_Some; simpl; by rewrite M1].
    erewrite bind_Some; [|apply load_state_Some; simpl; by rewrite S1].
    erewrite bind_Some;
      [|apply call_if_set_Some, (currentState_data_Some _ _ cs s); simpl;
        [by rewrite M1|by rewrite S1]].
    simpl. fold m2.
    erewrite bind_Some;
      [|eapply load_transition_Some; simpl; [by rewrite A2|done]].
    erewrite bind_Some;
      [|apply call_if_set_Some, (currentState_data_Some _ _ cs s); simpl;
        [by rewrite M2|by rewrite S2]].
    simpl. fold m3.
    erewrite bind_Some;
      [|eapply load_transition_Some; simpl; [by rewrite A3|done]].
    destruct (states m3 !! nextState t) as [s'|] eqn:Hs'.
    + set (m4 := callback_step (entryAction s') (data s') event m3).
      assert (same_source fsm cs (transitions s) m m4) as (M4 & S4 & A4)
        by (eapply same_source_trans; [|by apply callback_step_source];
            by repeat split).
      erewrite bind_Some; [|by apply load_state_Some].
      erewrite bind_Some; [|apply (call_if_set_Some _ _ _ _ (data s'))].
      2:{ erewrite bind_Some;
            [|eapply load_transition_Some; simpl; [by rewrite A3|done]].
          erewrite bind_Some; [|by apply load_state_Some].
          done. }
      simpl. fold m4.
      erewrite bind_Some;
        [|eapply load_transition_Some; simpl; [by rewrite A4|done]].
      unfold bind, store_currentState, ret. simpl. rewrite M4, Hm. simpl.
      by rewrite <- !app_assoc, Nat.add_0_r.
    + apply bind_None. unfold load_state. simpl. by rewrite Hs'.
  - rewrite (handle_rejected fsm event cs s arr e (start m) i t Hr Hf Hg).
    simpl. by rewrite Nat.add_0_r.
Qed.

(** X8.  A transition without guard and action between states without exit
    and entry callbacks calls nothing: the handler returns true and the one
    thing it changes is the current state of the machine.  No assumption on
    the callbacks of the program is needed, since none is run. *)
Theorem silent_transition_only_moves_the_machine m fsm event cs s arr e i t s' :
  dispatch_ready m fsm event cs s arr e →
  first_match e (transition_list s arr) = Some (i, t) →
  states m !! nextState t = Some s' →
  guard t = SM_NO_GUARD → action t = SM_NO_ACTION →
  exitAction s = SM_NO_ACTION → entryAction s' = SM_NO_ACTION →
  fsm_handle_event fsm event (start m) =
    Some (true, Build_config (set_currentState fsm (nextState t) m)
                  [StoreCurrentState fsm (nextState t)] (S i)).
Proof.
  intros Hr Hf Hs' Hg Hact Hex Hen.
  destruct (first_match_lookup _ _ _ _ _ Hf) as (Hl & Hi & Hid).
  search_and_guard fsm event cs s arr e Hr Hf Hl.
  unfold guard_step, guard_calls. rewrite Hg. simpl in *.
  erewrite bind_Some; [|by apply load_currentState_Some].
  erewrite bind_Some; [|by apply load_state_Some].
  rewrite Hex. unfold call_if_set at 1. simpl.
  unfold bind at 1. simpl.
  erewrite bind_Some; [|by eapply load_transition_Some].
  rewrite Hact. unfold call_if_set at 1. simpl.
  unfold bind at 1. simpl.
  erewrite bind_Some; [|by eapply load_transition_Some].
  erewrite bind_Some; [|by apply load_state_Some].
  rewrite Hen. unfold call_if_set at 1. simpl.
  unfold bind at 1. simpl.
  erewrite bind_Some; [|by eapply load_transition_Some].
  unfold bind, store_currentState, ret. simpl. rewrite Hm. simpl.
  by rewrite Nat.add_0_r.
Qed.

End Edges.

(** ** What a run leaves behind: results, invariants, the next run *)

Section Invariants.
Context {W : Type} `{Callbacks W}.
Implicit Types (c : config W) (m : memory W).


Lemma target_of_first_match m e s arr i t :
  Forall (λ t, is_Some (states m !! nextState t)) (transition_list s arr) →
  first_match e (transition_list s arr) = Some (i, t) →
  is_Some (states m !! nextState t).
Proof.
  intros Htargets Hf. unfold first_match in Hf.
  apply list_find_Some in Hf as (Hl & _).
  by eapply Forall_lookup_1 in Htargets.
Qed.


(** X5.  The cost of the search: the loop body runs once for each
    transition up to and including the first one for the event, and once
    for every transition of the state when there is none. *)
Theorem search_cost_is_position_of_first_match m fsm event cs s arr e :
  callbacks_keep_topology fsm →
  dispatch_ready m fsm event cs s arr e →
  (numTransitions s ≤ length arr)%nat →
  Forall (λ t, is_Some (states m !! nextState t)) (transition_list s arr) →
  ∃ b c', fsm_handle_event fsm event (start m) = Some (b, c') ∧
          iterations c' =
            match first_match e (transition_list s arr) with
            | Some (i, _) => S i
            | None => numTransitions s
            end.
Proof.
  intros K Hr Hn Htargets.
  destruct (first_match e (transition_list s arr)) as [[i t]|] eqn:Hf.
  - destruct (target_of_first_match m e s arr i t Htargets Hf) as [s' Hs'].
    destruct (handle_matched m fsm event cs s arr e i t s' K Hr Hf Hs')
      as (c' & Hrun & Hit & _).
    by exists (guard_step t s event m).1, c'.
  - exists false. eexists. split;
      [by apply (handle_no_match fsm event cs s arr e (start m))|].
    simpl. lia.
Qed.

Lemma well_formed_same_topology fsm m m' :
  same_topology fsm m m' → well_formed m fsm → well_formed m' fsm.
Proof.
  intros (Hs & Ha & Hm) [Hcur Hall]. unfold well_formed.
  rewrite Hs, Ha, Hm. done.
Qed.

Lemma well_formed_set_currentState fsm p m :
  well_formed m fsm → is_Some (states m !! p) →
  well_formed (set_currentState fsm p m) fsm.
Proof.
  intros [_ Hall] Hp. split; [|done].
  exists p. simpl. by rewrite lookup_insert_eq.
Qed.

(** X6.  A well-formed memory stays well formed: where every state has its
    array, a count within it and transitions that lead to states, and the
    machine is in one of the states, the handler returns a boolean for every
    event, and the memory it leaves is well formed again, so that the
    handler can be called on it again. *)
Theorem well_formed_memory_stays_well_formed m fsm event :
  callbacks_keep_topology fsm →
  well_formed m fsm →
  is_Some (events m !! event) →
  ∃ b c', fsm_handle_event fsm event (start m) = Some (b, c') ∧
          well_formed (mem c') fsm.
Proof.
  intros K Hwf [e He]. pose proof Hwf as [(cs & Hm & [s Hs]) Hall].
  destruct (Hall cs s Hs) as (arr & Ha & Hn & Htargets).
  assert (dispatch_ready m fsm event cs s arr e) as Hr by done.
  destruct (first_match e (transition_list s arr)) as [[i t]|] eqn:Hf.
  - destruct (target_of_first_match m e s arr i t Htargets Hf) as [s' Hs'].
    destruct (handle_matched m fsm event cs s arr e i t s' K Hr Hf Hs')
      as (c' & Hrun & _ & _ & Hmem).
    exists (guard_step t s event m).1, c'. split; [done|]. rewrite Hmem.
    pose proof (guard_step_topology fsm t s event m K) as T1.
    destruct (guard_step t s event m).1.
    + pose proof (fire_steps_topology fsm t s s' event
                    (guard_step t s event m).2 K) as T2.
      pose proof (same_topology_trans _ _ _ _ T1 T2) as T.
      apply well_formed_set_currentState;
        [by eapply well_formed_same_topology|].
      destruct T as (-> & _). by eexists.
    + by eapply well_formed_same_topology.
  - exists false. eexists. split;
      [by apply (handle_no_match fsm event cs s arr e (start m))|done].
Qed.

Lemma replay_keeps_machine a calls : ∀ m,
  callbacks_keep_machine a → Forall (λ x, is_call x) calls →
  machines (replay calls m) !! a = machines m !! a.
Proof.
  induction calls as [|x calls IH]; intros m K Hall; [done|].
  apply Forall_cons in Hall as [Hx Hall]. unfold replay. simpl.
  etrans; [by apply IH|].
  destruct x as [f d ev|f d ev|fsm p]; [apply K..|done].
Qed.

(** X7.  Machines that share a topology do not disturb each other: a run of
    the handler for the machine at [fsm] leaves the current state of another
    machine as it is, as long as no callback writes that machine; what else
    the callbacks write does not matter. *)
Theorem other_machine_keeps_its_state m fsm other event b c' :
  other ≠ fsm →
  callbacks_keep_machine other →
  fsm_handle_event fsm event (start m) = Some (b, c') →
  machines (mem c') !! other = machines m !! other.
Proof.
  intros Hne K Hrun. apply handle_calls_then_stores in Hrun. destruct b.
  - destruct Hrun as (c1 & p & (calls & Hall & _ & Hmem) & ->). simpl in *.
    rewrite lookup_insert_ne, Hmem by done.
    by apply replay_keeps_machine.
  - destruct Hrun as (calls & Hall & _ & Hmem). simpl in *. rewrite Hmem.
    by apply replay_keeps_machine.
Qed.

(** X9.  A state initialised with [SM_STATE_ACTIONS] and [SM_TRANSITIONS]
    has the count of its array: the handler returns a boolean for every
    event after at most as many iterations as transitions were written, and
    each transition that was written and has no transition for the same
    event before it is the one the handler decides on. *)
Theorem macro_state_is_searched_exactly m fsm event cs DATA ENTRY EXIT a ts e :
  callbacks_keep_topology fsm →
  dispatch_ready m fsm event cs (SM_STATE DATA ENTRY EXIT a ts) ts e →
  Forall (λ t, is_Some (states m !! nextState t)) ts →
  ∃ b c', fsm_handle_event fsm event (start m) = Some (b, c') ∧
          (iterations c' ≤ length ts)%nat ∧
          ∀ i t, ts !! i = Some t → eventID t = ID e →
                 (∀ j t', (j < i)%nat → ts !! j = Some t' → eventID t' ≠ ID e) →
                 b = (guard_step t (SM_STATE DATA ENTRY EXIT a ts) event m).1 ∧
                 iterations c' = S i.
Proof.
  intros K Hr Htargets. set (s := SM_STATE DATA ENTRY EXIT a ts) in *.
  assert (transition_list s ts = ts) as Hts by apply firstn_all.
  destruct (first_match e ts) as [[i t]|] eqn:Hf.
  - assert (is_Some (states m !! nextState t)) as [s' Hs'].
    { apply (target_of_first_match m e s ts i t); by rewrite Hts. }
    rewrite <- Hts in Hf.
    destruct (handle_matched m fsm event cs s ts e i t s' K Hr Hf Hs')
      as (c' & Hrun & Hit & _).
    rewrite Hts in Hf. unfold first_match in Hf.
    apply list_find_Some in Hf as (Hl & Hid & Hfirst).
    exists (guard_step t s event m).1, c'. split; [done|]. split.
    { apply lookup_lt_Some in Hl. lia. }
    intros i2 t2 Hl2 Hid2 Hfirst2.
    assert (i2 = i) as ->.
    { destruct (Nat.lt_trichotomy i2 i) as [Hlt|[->|Hlt]]; [|done|].
      - by destruct (Hfirst _ _ Hl2 Hlt).
      - by destruct (Hfirst2 _ _ Hlt Hl). }
    by simplify_eq.
  - exists false. eexists. split.
    { apply (handle_no_match fsm event cs s ts e (start m)); [done..|].
      by rewrite Hts. }
    simpl. split; [lia|]. intros i t Hl Hid _.
    unfold first_match in Hf. apply list_find_None in Hf.
    by eapply Forall_lookup_1 in Hf.
Qed.

(** X10.  Runs compose: after a run that takes a transition, the machine,
    the target state and the array of the target state are in place for the
    next run, which therefore searches the transitions of the target
    state. *)
Theorem next_run_starts_in_the_target m fsm event cs s arr e i t s' arr' event2 e2 :
  callbacks_keep_topology fsm →
  dispatch_ready m fsm event cs s arr e →
  first_match e (transition_list s arr) = Some (i, t) →
  states m !! nextState t = Some s' →
  arrays m !! transitions s' = Some arr' →
  guard t = NULL ∨ (guard_fn (guard t) (data s) event m).1 = true →
  ∃ c1, fsm_handle_event fsm event (start m) = Some (true, c1) ∧
        (events (mem c1) !! event2 = Some e2 →
         dispatch_ready (mem c1) fsm event2 (nextState t) s' arr' e2).
Proof.
  intros K Hr Hf Hs' Ha' Hg. apply guard_step_accepts in Hg.
  destruct (handle_matched m fsm event cs s arr e i t s' K Hr Hf Hs')
    as (c1 & Hrun & _ & _ & Hmem).
  rewrite Hg in *. exists c1. split; [done|]. intros He2.
  pose proof (guard_step_topology fsm t s event m K) as T1.
  pose proof (fire_steps_topology fsm t s s' event
                (guard_step t s event m).2 K) as T2.
  destruct (same_topology_trans _ _ _ _ T1 T2) as (Hst & Har & _).
  rewrite Hmem in *. split; simpl.
  - apply lookup_insert_eq.
  - by rewrite Hst.
  - by rewrite Har.
  - done.
Qed.

End Invariants.

(** ** The example of the header and the faulty tables, run *)

Lemma example_ready :
  dispatch_ready Example.boot Example.fsm 700 Example.doorClosedState
    Example.doorClosed Example.closedTransitions Example.open_event.
Proof. by split. Qed.

Lemma example_targets :
  Forall (λ t, is_Some (states Example.boot !! nextState t)) Example.closedTransitions.
Proof. repeat constructor; by eexists. Qed.

Lemma example_well_formed : well_formed Example.boot Example.fsm.
Proof.
  split; [exists Example.doorClosedState; split; [done|by eexists]|].
  intros p s Hp. simpl in Hp.
  apply lookup_insert_Some in Hp as [[<- <-]|[_ Hp]];
    [|apply lookup_insert_Some in Hp as [[<- <-]|[_ Hp]]; [|done]].
  - exists Example.openTransitions. split; [done|]. split; [simpl; lia|].
    repeat constructor; by eexists.
  - exists Example.closedTransitions. split; [done|]. split; [simpl; lia|].
    repeat constructor; by eexists.
Qed.

Lemma state_without_transitions_ignores_events_witness :
  fsm_handle_event Example.fsm 999
    (start (set_currentState Example.fsm 521 Example.latch)) =
  Some (false, start (set_currentState Example.fsm 521 Example.latch)).
Proof.
  refine (state_without_transitions_ignores_events
            (set_currentState Example.fsm 521 Example.latch) Example.fsm 999 521
            (SM_STATE 1 SM_NO_ACTION SM_NO_ACTION NULL []) _ _ _).
  - reflexivity.
  - reflexivity.
  - reflexivity.
Defined.

Lemma overlong_count_reads_behind_the_array_witness :
  fsm_handle_event Example.fsm 701 (start Example.overrun) = None.
Proof.
  refine (overlong_count_reads_behind_the_array Example.overrun Example.fsm 701
            Example.doorClosedState Example.miscounted Example.closedTransitions
            Example.close_event _ _ _).
  - by split.
  - simpl. lia.
  - by repeat constructor.
Defined.

Lemma builder_keeps_source :
  @callbacks_keep_source _ Builder.code Example.fsm Example.doorClosedState 511.
Proof.
  intros f d ev m. split; [|by repeat split].
  split; [done|]. split; [|done]. simpl. by apply lookup_insert_ne.
Qed.

Lemma dangling_target_matters_only_when_taken_witness :
  states Example.dangling !! Example.doorOpenState = None ∧
  @fsm_handle_event _ Builder.code Example.fsm 700 (start Example.dangling) =
    Some (true, Builder.door_opened).
Proof.
  split; [reflexivity|].
  refine (@dangling_target_matters_only_when_taken _ Builder.code
            Example.dangling Example.fsm 700
            Example.doorClosedState Example.doorClosed Example.closedTransitions
            Example.open_event 0%nat
            (Build_transition_t Example.EVENT_OPEN Example.doorOpenState
               SM_NO_ACTION Example.doorOpenedAction) _ _ _).
  - exact builder_keeps_source.
  - by split.
  - reflexivity.
Defined.


Lemma search_cost_is_position_of_first_match_witness :
  ∃ b c', fsm_handle_event Demo.lock 403 (start Demo.boot) = Some (b, c') ∧
          iterations c' = 3%nat.
Proof.
  refine (search_cost_is_position_of_first_match Demo.boot Demo.lock 403
            Demo.lockedState Demo.locked Demo.lockedTable Demo.ping _ _ _ _).
  - apply demo_code_keeps_topology.
  - by apply lock_ready.
  - simpl. lia.
  - repeat constructor; by eexists.
Defined.

Lemma well_formed_memory_stays_well_formed_witness :
  ∃ b c', fsm_handle_event Example.fsm 700 (start Example.boot) = Some (b, c') ∧
          well_formed (mem c') Example.fsm.
Proof.
  refine (well_formed_memory_stays_well_formed Example.boot Example.fsm 700 _ _ _).
  - apply demo_code_keeps_topology.
  - exact example_well_formed.
  - by eexists.
Defined.

Lemma demo_code_keeps_machine a : @callbacks_keep_machine _ Demo.code a.
Proof. intros f d ev m. by split. Qed.

Lemma other_machine_keeps_its_state_witness :
  machines (mem Demo.door_opened) !! Demo.lock = machines Demo.boot !! Demo.lock.
Proof.
  refine (other_machine_keeps_its_state Demo.boot Demo.door Demo.lock 400 true
            Demo.door_opened _ _ _).
  - discriminate.
  - apply demo_code_keeps_machine.
  - exact door_opens.
Defined.

Lemma silent_transition_only_moves_the_machine_witness :
  fsm_handle_event Example.fsm 701 (start Example.latch) =
    Some (true, Build_config (set_currentState Example.fsm 521 Example.latch)
                  [StoreCurrentState Example.fsm 521] 1).
Proof.
  refine (silent_transition_only_moves_the_machine Example.latch Example.fsm 701 520
            (SM_STATE 0 SM_NO_ACTION SM_NO_ACTION 530 Example.latchTransitions)
            Example.latchTransitions Example.close_event 0%nat
            (Build_transition_t Example.EVENT_CLOSE 521 SM_NO_GUARD SM_NO_ACTION)
            (SM_STATE 1 SM_NO_ACTION SM_NO_ACTION NULL []) _ _ _ _ _ _ _).
  - by split.
  - reflexivity.
  - reflexivity.
  - reflexivity.
  - reflexivity.
  - reflexivity.
  - reflexivity.
Defined.

Lemma macro_state_is_searched_exactly_witness :
  ∃ b c', fsm_handle_event Example.fsm 700 (start Example.boot) = Some (b, c') ∧
          (iterations c' ≤ 1)%nat ∧
          ∀ i t, Example.closedTransitions !! i = Some t →
                 eventID t = ID Example.open_event →
                 (∀ j t', (j < i)%nat → Example.closedTransitions !! j = Some t' →
                          eventID t' ≠ ID Example.open_event) →
                 b = (guard_step t Example.doorClosed 700 Example.boot).1 ∧
                 iterations c' = S i.
Proof.
  refine (macro_state_is_searched_exactly Example.boot Example.fsm 700
            Example.doorClosedState Example.STATE_CLOSED SM_NO_ACTION SM_NO_ACTION
            511 Example.closedTransitions Example.open_event _ _ _).
  - apply demo_code_keeps_topology.
  - exact example_ready.
  - exact example_targets.
Defined.

Lemma next_run_starts_in_the_target_witness :
  ∃ c1, fsm_handle_event Example.fsm 700 (start Example.boot) = Some (true, c1) ∧
        (events (mem c1) !! 701 = Some Example.close_event →
         dispatch_ready (mem c1) Example.fsm 701 Example.doorOpenState
           Example.doorOpen Example.openTransitions Example.close_event).
Proof.
  refine (next_run_starts_in_the_target Example.boot Example.fsm 700
            Example.doorClosedState Example.doorClosed Example.closedTransitions
            Example.open_event 0%nat
            (Build_transition_t Example.EVENT_OPEN Example.doorOpenState
               SM_NO_ACTION Example.doorOpenedAction)
            Example.doorOpen Example.openTransitions 701 Example.close_event
            _ _ _ _ _ _).
  - apply demo_code_keeps_topology.
  - exact example_ready.
  - reflexivity.
  - reflexivity.
  - reflexivity.
  - left. reflexivity.
Defined.
